(** * browserballad: the race orchestration core

    A shallow embedding of [competition/race_manager.py] (the race state
    machine and its two registries), of the response normalisation at the
    end of [competition/llm.py:judge_race], and of the event stream
    [competition/server.py:RunState], together with the properties the
    specification states about them.

    Conventions of the embedding.
    - Python [None]-able attributes are [option]s; dictionaries used as
      registries are [gmap]s keyed by strings.
    - [time.time()] readings are explicit arguments ([now]); a timestamp is
      an integer number of clock ticks.  The code applies only three
      operations to timestamps: the [is None] test, Python truthiness
      ([x or y], [if x]), and subtraction.
    - An exception leaves the global state as it was when it was raised:
      operations run in a state-and-exception monad [M].
    - The event loop is cooperative.  A coroutine runs atomically up to its
      next real suspension; [handle_run_event], [record_human_submission]
      and [_maybe_finalize] contain none, so each is one atomic step.  The
      detached [_run_judgement] task suspends once, on the judge call, and
      its continuation is one atomic step. *)

From Stdlib Require Import ZArith String Ascii List Bool Lia.
From stdpp Require Import base option gmap strings list.

Local Open Scope string_scope.
Local Open Scope Z_scope.

(** ** Python values *)

(** A Python [float]: a dyadic number, an infinity or a NaN. *)
Inductive pyfloat :=
| FFinite (mantissa exponent : Z)
| FInf (negative : bool)
| FNaN.

(** The literal [0.0]. *)
Definition float_zero : pyfloat := FFinite 0 0.

(** What [json.loads] can return. *)
#[local] Set Warnings "-register-all".
Inductive json :=
| JNull
| JBool (b : bool)
| JInt (z : Z)
| JFloat (f : pyfloat)
| JStr (s : string)
| JArr (items : list json)
| JObj (fields : list (string * json)).

(** The exceptions the modelled code raises or lets through. *)
Inductive py_exn :=
| KeyError (msg : string)
| RuntimeError (msg : string)
| OverflowError (msg : string).

Inductive outcome (A : Type) :=
| Return (a : A)
| Raise (e : py_exn).
Arguments Return {A} a.
Arguments Raise {A} e.

(** Truthiness of a string ([if s:]). *)
Definition truthy_str (s : string) : bool :=
  match s with EmptyString => false | _ => true end.

(** Truthiness of an optional timestamp ([if ts:]): [None] and [0.0] are
    falsy. *)
Definition truthy_ts (ts : option Z) : bool :=
  match ts with
  | Some t => negb (t =? 0)
  | None => false
  end.

(** [ts or now] on an optional timestamp. *)
Definition ts_or (ts : option Z) (now : Z) : Z :=
  match ts with
  | Some t => if t =? 0 then now else t
  | None => now
  end.

(** [submission or ""] on an optional string. *)
Definition str_or_empty (s : option string) : string :=
  match s with
  | Some t => t
  | None => ""
  end.

(** [d.get(key) == lit] for a string-valued entry. *)
Definition is_str (o : option string) (lit : string) : bool :=
  match o with
  | Some s => String.eqb s lit
  | None => false
  end.

(** ** Data model ([race_manager.py], lines 16-62) *)

Record RaceTask := mkRaceTask {
  title : string;
  summary : string;
  human_instructions : string;
  agent_instructions : string;
  task_type : string;
  success_criteria : string;
  expected_output_description : string;
  evaluation_guidelines : list string
}.

(** [ParticipantState]; its [status] attribute is [p_status] here, since the
    race has a [status] of its own.  It is a free string: a [status] event
    stores whatever the executor sent. *)
Record ParticipantState := mkParticipantState {
  p_status : string;
  started_at : option Z;
  completed_at : option Z;
  duration_seconds : option Z;
  result : option string;
  live_url : option string
}.

(** The verdict dictionary, with its four keys. *)
Record Verdict := mkVerdict {
  winner : string;
  reasoning : json;
  agent_score : pyfloat;
  human_score : pyfloat
}.

(** The race-level status; the code only ever assigns these five
    literals. *)
Inductive RaceStatus :=
| ready
| running
| awaiting_human
| judging
| completed.

Record RaceState := mkRaceState {
  race_id : string;
  task : RaceTask;
  created_at : Z;
  status : RaceStatus;
  agent_run_id : option string;
  agent : ParticipantState;
  human : ParticipantState;
  human_submission : option string;
  verdict : option Verdict;
  finalizing : bool
}.

Global Instance RaceStatus_eq_dec : EqDecision RaceStatus.
Proof. solve_decision. Defined.

(** Attribute assignments. *)
Definition set_p_status (v : string) (p : ParticipantState) : ParticipantState :=
  mkParticipantState v (started_at p) (completed_at p) (duration_seconds p)
                     (result p) (live_url p).
Definition set_started_at (v : option Z) (p : ParticipantState) : ParticipantState :=
  mkParticipantState (p_status p) v (completed_at p) (duration_seconds p)
                     (result p) (live_url p).
Definition set_completed_at (v : option Z) (p : ParticipantState) : ParticipantState :=
  mkParticipantState (p_status p) (started_at p) v (duration_seconds p)
                     (result p) (live_url p).
Definition set_duration_seconds (v : option Z) (p : ParticipantState) : ParticipantState :=
  mkParticipantState (p_status p) (started_at p) (completed_at p) v
                     (result p) (live_url p).
Definition set_result (v : option string) (p : ParticipantState) : ParticipantState :=
  mkParticipantState (p_status p) (started_at p) (completed_at p)
                     (duration_seconds p) v (live_url p).
Definition set_live_url (v : option string) (p : ParticipantState) : ParticipantState :=
  mkParticipantState (p_status p) (started_at p) (completed_at p)
                     (duration_seconds p) (result p) v.

Definition set_status (v : RaceStatus) (r : RaceState) : RaceState :=
  mkRaceState (race_id r) (task r) (created_at r) v (agent_run_id r) (agent r)
              (human r) (human_submission r) (verdict r) (finalizing r).
Definition set_agent_run_id (v : option string) (r : RaceState) : RaceState :=
  mkRaceState (race_id r) (task r) (created_at r) (status r) v (agent r)
              (human r) (human_submission r) (verdict r) (finalizing r).
Definition set_agent (v : ParticipantState) (r : RaceState) : RaceState :=
  mkRaceState (race_id r) (task r) (created_at r) (status r) (agent_run_id r) v
              (human r) (human_submission r) (verdict r) (finalizing r).
Definition set_human (v : ParticipantState) (r : RaceState) : RaceState :=
  mkRaceState (race_id r) (task r) (created_at r) (status r) (agent_run_id r)
              (agent r) v (human_submission r) (verdict r) (finalizing r).
Definition set_human_submission (v : option string) (r : RaceState) : RaceState :=
  mkRaceState (race_id r) (task r) (created_at r) (status r) (agent_run_id r)
              (agent r) (human r) v (verdict r) (finalizing r).
Definition set_verdict (v : option Verdict) (r : RaceState) : RaceState :=
  mkRaceState (race_id r) (task r) (created_at r) (status r) (agent_run_id r)
              (agent r) (human r) (human_submission r) v (finalizing r).
Definition set_finalizing (v : bool) (r : RaceState) : RaceState :=
  mkRaceState (race_id r) (task r) (created_at r) (status r) (agent_run_id r)
              (agent r) (human r) (human_submission r) (verdict r) v.

(** [ParticipantState(status="pending")]. *)
Definition new_participant : ParticipantState :=
  mkParticipantState "pending" None None None None None.

(** [RaceState(race_id=race_id, task=task)]. *)
Definition new_race (rid : string) (t : RaceTask) (now : Z) : RaceState :=
  mkRaceState rid t now ready None new_participant new_participant
              None None false.

(** An executor event: the four keys [handle_run_event] reads with
    [event.get]; a key that is absent reads as [None]. *)
Record Event := mkEvent {
  ev_type : option string;
  ev_status : option string;
  ev_url : option string;
  ev_result : option string
}.

(** ** The process state

    [RACE_STATES] and [RUN_TO_RACE] are the two module-level dictionaries.
    A race object is reached only through its entry in [RACE_STATES], so
    mutating the object is updating that entry.  [pending_judgements] is
    the set of [_run_judgement] tasks the event loop holds, each named by
    the race it closes over.  [judge_calls] and [verdict_writes] are
    history: one entry per [asyncio.create_task(_run_judgement())] and
    per assignment to [race.verdict]. *)
Record System := mkSystem {
  RACE_STATES : gmap string RaceState;
  RUN_TO_RACE : gmap string string;
  pending_judgements : list string;
  judge_calls : list string;
  verdict_writes : list string
}.

Definition init_system : System := mkSystem ∅ ∅ [] [] [].

(** ** The state-and-exception monad *)

Definition M (A : Type) : Type := System → outcome A * System.

Definition ret {A} (a : A) : M A := fun s => (Return a, s).
Definition raise {A} (e : py_exn) : M A := fun s => (Raise e, s).
Definition bind {A B} (m : M A) (k : A → M B) : M B :=
  fun s =>
    match m s with
    | (Return a, s') => k a s'
    | (Raise e, s') => (Raise e, s')
    end.

Notation "x <~ m ;; k" := (bind m (fun x => k))
  (at level 100, m at next level, right associativity).
Notation "m ;;; k" := (bind m (fun _ => k))
  (at level 100, right associativity).

Definition store_race (rid : string) (r : RaceState) : M unit :=
  fun s => (Return tt,
            mkSystem (<[rid := r]> (RACE_STATES s)) (RUN_TO_RACE s)
                     (pending_judgements s) (judge_calls s) (verdict_writes s)).

Definition bind_run (run rid : string) : M unit :=
  fun s => (Return tt,
            mkSystem (RACE_STATES s) (<[run := rid]> (RUN_TO_RACE s))
                     (pending_judgements s) (judge_calls s) (verdict_writes s)).

(** [RUN_TO_RACE.pop(run_id, None)]. *)
Definition pop_run (run : string) : M unit :=
  fun s => (Return tt,
            mkSystem (RACE_STATES s) (delete run (RUN_TO_RACE s))
                     (pending_judgements s) (judge_calls s) (verdict_writes s)).

(** [asyncio.create_task(_run_judgement())] for the race [rid]. *)
Definition create_judgement_task (rid : string) : M unit :=
  fun s => (Return tt,
            mkSystem (RACE_STATES s) (RUN_TO_RACE s)
                     (pending_judgements s ++ [rid]) (judge_calls s ++ [rid])
                     (verdict_writes s)).

(** ** Operations of [race_manager.py] *)

(** [p.completed_at - p.started_at]; the code evaluates it only where both
    are set. *)
Definition elapsed (p : ParticipantState) : option Z :=
  match completed_at p, started_at p with
  | Some c, Some s => Some (c - s)
  | _, _ => None
  end.

(** [get_race] (lines 119-123). *)
Definition get_race (rid : string) : M RaceState :=
  fun s =>
    match RACE_STATES s !! rid with
    | Some race => (Return race, s)
    | None => (Raise (KeyError ("Unknown race id " +:+ rid)), s)
    end.

(** [create_race] (lines 109-116), with the generated task and the
    [uuid4] identifier as arguments. *)
Definition create_race (rid : string) (t : RaceTask) (now : Z) : M RaceState :=
  let race := new_race rid t now in
  store_race rid race ;;; ret race.

(** The assignments of [register_agent_run] to the race object
    (lines 130, 133-135). *)
Definition register_run_on (run : string) (now : Z) (race : RaceState) : RaceState :=
  let race := set_agent_run_id (Some run) race in
  let race := set_status running race in
  let race := set_agent (set_p_status "starting" (agent race)) race in
  set_agent (set_started_at (Some (ts_or (started_at (agent race)) now))
                            (agent race)) race.

(** [register_agent_run] (lines 126-136). *)
Definition register_agent_run (rid run : string) (now : Z) : M RaceState :=
  race <~ get_race rid ;;
  match agent_run_id race with
  | Some _ =>
      raise (RuntimeError ("Agent run already registered for race " +:+ rid))
  | None =>
      let race' := register_run_on run now race in
      store_race rid race' ;;;
      bind_run run rid ;;;
      ret race'
  end.

(** The [status] branch of [handle_run_event] (lines 147-151). *)
Definition on_status (e : Event) (now : Z) (race : RaceState) : RaceState :=
  match ev_status e with
  | Some st =>
      if truthy_str st then
        let race := set_agent (set_p_status st (agent race)) race in
        if String.eqb st "running" then
          match started_at (agent race) with
          | None => set_agent (set_started_at (Some now) (agent race)) race
          | Some _ => race
          end
        else race
      else race
  | None => race
  end.

(** The [live_url] branch (lines 153-155). *)
Definition on_live_url (e : Event) (race : RaceState) : RaceState :=
  match ev_url e with
  | Some url =>
      if truthy_str url then set_agent (set_live_url (Some url) (agent race)) race
      else race
  | None => race
  end.

(** The [result] branch (lines 157-162). *)
Definition on_result (e : Event) (now : Z) (race : RaceState) : RaceState :=
  match ev_result e with
  | Some res =>
      let race := set_agent (set_result (Some res) (agent race)) race in
      let race :=
        set_agent (set_completed_at (Some (ts_or (completed_at (agent race)) now))
                                    (agent race)) race in
      if truthy_ts (started_at (agent race)) then
        set_agent (set_duration_seconds (elapsed (agent race)) (agent race)) race
      else race
  | None => race
  end.

(** The [error] branch (line 164). *)
Definition on_error (race : RaceState) : RaceState :=
  set_agent (set_p_status "error" (agent race)) race.

(** The [complete] branch, without the [RUN_TO_RACE.pop] (lines 166-171). *)
Definition on_complete (now : Z) (race : RaceState) : RaceState :=
  let race := set_agent (set_p_status "completed" (agent race)) race in
  let race :=
    set_agent (set_completed_at (Some (ts_or (completed_at (agent race)) now))
                                (agent race)) race in
  let race :=
    if truthy_ts (started_at (agent race)) then
      match duration_seconds (agent race) with
      | None =>
          set_agent (set_duration_seconds (elapsed (agent race)) (agent race)) race
      | Some _ => race
      end
    else race in
  match status race with
  | judging | completed => race
  | _ =>
      if String.eqb (p_status (human race)) "completed" then race
      else set_status awaiting_human race
  end.

(** The [if]/[elif] chain of [handle_run_event] on the race object
    (lines 145-171). *)
Definition apply_event (e : Event) (now : Z) (race : RaceState) : RaceState :=
  if is_str (ev_type e) "status" then on_status e now race
  else if is_str (ev_type e) "live_url" then on_live_url e race
  else if is_str (ev_type e) "result" then on_result e now race
  else if is_str (ev_type e) "error" then on_error race
  else if is_str (ev_type e) "complete" then on_complete now race
  else race.

(** Readiness, as [_maybe_finalize] computes it (lines 203-207). *)
Definition agent_ready (race : RaceState) : bool :=
  match result (agent race) with
  | Some _ => true
  | None => String.eqb (p_status (agent race)) "error"
  end.

Definition human_ready (race : RaceState) : bool :=
  if String.eqb (task_type (task race)) "text_entry" then
    match human_submission race with Some _ => true | None => false end
  else String.eqb (p_status (human race)) "completed".

(** The guard of [_maybe_finalize] (lines 200-210): does this call go on
    to start a judgement? *)
Definition should_finalize (race : RaceState) : bool :=
  match verdict race with
  | Some _ => false
  | None =>
      if finalizing race then false
      else agent_ready race && human_ready race
  end.

(** [_maybe_finalize] (lines 199-237), up to and including the
    [create_task]; the body of the task itself is [run_judgement]. *)
Definition maybe_finalize (rid : string) : M unit :=
  race <~ get_race rid ;;
  if should_finalize race then
    store_race rid (set_status judging (set_finalizing true race)) ;;;
    create_judgement_task rid
  else ret tt.

(** [handle_run_event] (lines 139-174). *)
Definition handle_run_event (run : string) (e : Event) (now : Z) : M unit :=
  fun s =>
    match RUN_TO_RACE s !! run with
    | None => (Return tt, s)
    | Some rid =>
        if truthy_str rid then
          (race <~ get_race rid ;;
           store_race rid (apply_event e now race) ;;;
           (if is_str (ev_type e) "complete" then pop_run run else ret tt) ;;;
           maybe_finalize rid) s
        else (Return tt, s)
    end.

(** The assignments of [record_human_submission] to the race object
    (lines 180-193).  The two [time.time()] calls are two readings. *)
Definition submit_on (submission : option string) (now1 now2 : Z)
    (race : RaceState) : RaceState :=
  let race :=
    if String.eqb (p_status (human race)) "pending" then
      let race := set_human (set_p_status "running" (human race)) race in
      set_human (set_started_at (Some (ts_or (started_at (human race)) now1))
                                (human race)) race
    else race in
  let race := set_human (set_p_status "completed" (human race)) race in
  let race :=
    set_human (set_completed_at (Some (ts_or (completed_at (human race)) now2))
                                (human race)) race in
  let race :=
    if truthy_ts (started_at (human race)) then
      match duration_seconds (human race) with
      | None =>
          set_human (set_duration_seconds (elapsed (human race)) (human race)) race
      | Some _ => race
      end
    else race in
  if String.eqb (task_type (task race)) "text_entry" then
    let race := set_human_submission (Some (str_or_empty submission)) race in
    set_human (set_result (human_submission race) (human race)) race
  else set_human_submission (Some (str_or_empty submission)) race.

(** [record_human_submission] (lines 177-196). *)
Definition record_human_submission (rid : string) (submission : option string)
    (now1 now2 : Z) : M RaceState :=
  race <~ get_race rid ;;
  store_race rid (submit_on submission now1 now2 race) ;;;
  maybe_finalize rid ;;;
  get_race rid.

(** The assignments of [mark_human_started] (lines 258-264). *)
Definition start_human_on (now : Z) (race : RaceState) : RaceState :=
  if String.eqb (p_status (human race)) "completed" then race
  else if String.eqb (p_status (human race)) "pending" then
    let race := set_human (set_p_status "running" (human race)) race in
    let race :=
      set_human (set_started_at (Some (ts_or (started_at (human race)) now))
                                (human race)) race in
    match status race with
    | ready => set_status running race
    | _ => race
    end
  else race.

(** [mark_human_started] (lines 256-265). *)
Definition mark_human_started (rid : string) (now : Z) : M RaceState :=
  race <~ get_race rid ;;
  let race' := start_human_on now race in
  store_race rid race' ;;;
  ret race'.

(** How the awaited [llm.judge_race] call ends: with a verdict, or with
    an [Exception] whose [str] is [exc_text]. *)
Inductive JudgeOutcome :=
| JudgeReturned (v : Verdict)
| JudgeRaised (exc_text : string).

(** The verdict of the [except] branch (lines 227-232). *)
Definition failure_verdict (exc_text : string) : Verdict :=
  mkVerdict "tie" (JStr ("Judging failed: " +:+ exc_text)) float_zero float_zero.

(** The continuation of [_run_judgement] after the judge call, on the race
    object (lines 224-235): the [try] or the [except] branch, then the
    [finally]. *)
Definition judgement_on (o : JudgeOutcome) (race : RaceState) : RaceState :=
  let race :=
    match o with
    | JudgeReturned v => set_status completed (set_verdict (Some v) race)
    | JudgeRaised txt =>
        set_status completed (set_verdict (Some (failure_verdict txt)) race)
    end in
  set_finalizing false race.

(** Dropping one finished task from the event loop's task list. *)
Fixpoint remove_first (x : string) (l : list string) : list string :=
  match l with
  | [] => []
  | y :: l' => if String.eqb x y then l' else y :: remove_first x l'
  end.

(** The task's continuation as a step of the process: it runs only if the
    event loop holds such a task, which it then drops. *)
Definition run_judgement (rid : string) (o : JudgeOutcome) : M unit :=
  race <~ get_race rid ;;
  store_race rid (judgement_on o race) ;;;
  fun s =>
    (Return tt,
     mkSystem (RACE_STATES s) (RUN_TO_RACE s)
              (remove_first rid (pending_judgements s)) (judge_calls s)
              (verdict_writes s ++ [rid])).

(** ** Executions

    What can happen to the process, one atomic step each. *)
Inductive Op :=
| OpCreateRace (rid : string) (t : RaceTask) (now : Z)
| OpRegisterAgentRun (rid run : string) (now : Z)
| OpRunEvent (run : string) (e : Event) (now : Z)
| OpHumanSubmission (rid : string) (submission : option string) (now1 now2 : Z)
| OpMarkHumanStarted (rid : string) (now : Z)
| OpMaybeFinalize (rid : string)
| OpJudgementDone (rid : string) (o : JudgeOutcome).

(** What the environment guarantees of a step: clock readings are
    positive (seconds since the epoch), [uuid4] identifiers are fresh, and
    only a judgement task that was started can finish. *)
Definition op_enabled (op : Op) (s : System) : bool :=
  match op with
  | OpCreateRace rid _ now =>
      (0 <? now) && bool_decide (RACE_STATES s !! rid = None)
  | OpRegisterAgentRun _ _ now => 0 <? now
  | OpRunEvent _ _ now => 0 <? now
  | OpHumanSubmission _ _ now1 now2 => (0 <? now1) && (0 <? now2)
  | OpMarkHumanStarted _ now => 0 <? now
  | OpMaybeFinalize _ => true
  | OpJudgementDone rid _ => bool_decide (rid ∈ pending_judgements s)
  end.

(** The state after a step; a raised exception is surfaced to the caller
    and the state stays as the operation left it. *)
Definition exec_op (op : Op) (s : System) : System :=
  match op with
  | OpCreateRace rid t now => snd (create_race rid t now s)
  | OpRegisterAgentRun rid run now => snd (register_agent_run rid run now s)
  | OpRunEvent run e now => snd (handle_run_event run e now s)
  | OpHumanSubmission rid sub now1 now2 =>
      snd (record_human_submission rid sub now1 now2 s)
  | OpMarkHumanStarted rid now => snd (mark_human_started rid now s)
  | OpMaybeFinalize rid => snd (maybe_finalize rid s)
  | OpJudgementDone rid o => snd (run_judgement rid o s)
  end.

(** Running a schedule from a state; [None] when the environment cannot
    produce it. *)
Fixpoint exec_ops (ops : list Op) (s : System) : option System :=
  match ops with
  | [] => Some s
  | op :: rest =>
      if op_enabled op s then exec_ops rest (exec_op op s) else None
  end.

(** The states the process can be in. *)
Definition reachable (s : System) : Prop :=
  ∃ ops, exec_ops ops init_system = Some s.

(** The order [ready → running → awaiting_human → judging → completed]. *)
Definition status_rank (st : RaceStatus) : nat :=
  match st with
  | ready => 0
  | running => 1
  | awaiting_human => 2
  | judging => 3
  | completed => 4
  end.

(** How often a race occurs in one of the histories. *)
Fixpoint occurrences (x : string) (l : list string) : nat :=
  match l with
  | [] => 0
  | y :: l' => ((if String.eqb x y then 1 else 0) + occurrences x l')%nat
  end.

(** ** Invariants of the reachable states *)

(** A participant's timestamps: clock readings are positive, completion
    comes after a start, and the cached duration is the difference. *)
Record participant_ok (p : ParticipantState) : Prop := {
  started_pos : ∀ t, started_at p = Some t → 0 < t;
  completed_pos : ∀ t, completed_at p = Some t → 0 < t;
  completed_started : completed_at p ≠ None → started_at p ≠ None;
  duration_elapsed : duration_seconds p = elapsed p
}.

(** The human side moves [pending → running → completed]. *)
Definition human_ok (h : ParticipantState) (sub : option string) : Prop :=
  (p_status h = "pending" ∧ started_at h = None ∧ completed_at h = None
   ∧ sub = None)
  ∨ (p_status h = "running" ∧ started_at h ≠ None ∧ completed_at h = None
     ∧ sub = None)
  ∨ (p_status h = "completed" ∧ completed_at h ≠ None ∧ sub ≠ None).

(** Everything about one race except that [_maybe_finalize] has looked at
    it; [np], [nw] and [nc] are the race's pending judgement tasks, verdict
    writes and judge calls. *)
Record race_pre (np nw nc : nat) (r : RaceState) : Prop := {
  inv_pending : np = (if finalizing r then 1 else 0)%nat;
  inv_writes : nw = match verdict r with Some _ => 1 | None => 0 end%nat;
  inv_calls : nc = (np + nw)%nat;
  inv_excl : finalizing r = true → verdict r = None;
  inv_judging : status r = judging ↔ finalizing r = true;
  inv_completed : status r = completed ↔ verdict r ≠ None;
  inv_norun :
    agent_run_id r = None →
    agent r = new_participant ∧ (status r = ready ∨ status r = running);
  inv_agent : participant_ok (agent r);
  inv_agent_started : agent_run_id r ≠ None → started_at (agent r) ≠ None;
  inv_human : participant_ok (human r);
  inv_human_status : human_ok (human r) (human_submission r)
}.

(** A race at rest: additionally, no judgement is due. *)
Definition race_inv (np nw nc : nat) (r : RaceState) : Prop :=
  race_pre np nw nc r ∧ should_finalize r = false.

Definition sys_ok (s : System) : Prop :=
  (∀ rid r, RACE_STATES s !! rid = Some r →
     race_inv (occurrences rid (pending_judgements s))
              (occurrences rid (verdict_writes s))
              (occurrences rid (judge_calls s)) r)
  ∧ (∀ run rid, RUN_TO_RACE s !! run = Some rid →
       ∃ r, RACE_STATES s !! rid = Some r ∧ agent_run_id r ≠ None)
  ∧ (∀ rid, RACE_STATES s !! rid = None →
       occurrences rid (pending_judgements s) = 0%nat
       ∧ occurrences rid (verdict_writes s) = 0%nat
       ∧ occurrences rid (judge_calls s) = 0%nat).

(** The race object after [_maybe_finalize] has looked at it. *)
Definition finalize_on (r : RaceState) : RaceState :=
  if should_finalize r then set_status judging (set_finalizing true r) else r.

(** The process after a handler stored [r1] for [rid], left the index as
    [m], and called [_maybe_finalize]. *)
Definition after_finalize (s : System) (rid : string) (r1 : RaceState)
    (m : gmap string string) : System :=
  if should_finalize r1 then
    mkSystem (<[rid := finalize_on r1]> (RACE_STATES s)) m
             (pending_judgements s ++ [rid]) (judge_calls s ++ [rid])
             (verdict_writes s)
  else
    mkSystem (<[rid := r1]> (RACE_STATES s)) m
             (pending_judgements s) (judge_calls s) (verdict_writes s).

(** Closes the fields of [race_pre] after a handler branch. *)
Ltac close_pre :=
  solve [ split; simpl; try done;
          try (split; simpl; unfold elapsed; simpl; intros; simplify_eq; done);
          try (intuition congruence) ].

(** What one step of the process can do to one race object. *)
Inductive race_step (r : RaceState) : RaceState → Prop :=
| step_none : race_step r r
| step_register run now :
    agent_run_id r = None → 0 < now →
    race_step r (register_run_on run now r)
| step_event e now :
    agent_run_id r ≠ None → 0 < now →
    race_step r (finalize_on (apply_event e now r))
| step_submission sub now1 now2 :
    0 < now1 → 0 < now2 →
    race_step r (finalize_on (submit_on sub now1 now2 r))
| step_human_start now :
    0 < now → race_step r (start_human_on now r)
| step_finalize : race_step r (finalize_on r)
| step_judgement o :
    finalizing r = true → race_step r (judgement_on o r).

(** [r'] is a later state of the race [r]: the status has not moved
    backwards, and what was recorded once (the verdict, the four
    timestamps) is still there. *)
Record race_later (r r' : RaceState) : Prop := {
  later_status : (status_rank (status r) ≤ status_rank (status r'))%nat;
  later_verdict : ∀ v, verdict r = Some v → verdict r' = Some v;
  later_agent_started :
    ∀ t, started_at (agent r) = Some t → started_at (agent r') = Some t;
  later_agent_completed :
    ∀ t, completed_at (agent r) = Some t → completed_at (agent r') = Some t;
  later_human_started :
    ∀ t, started_at (human r) = Some t → started_at (human r') = Some t;
  later_human_completed :
    ∀ t, completed_at (human r) = Some t → completed_at (human r') = Some t
}.

(** A race whose run has left the index while the agent is not ready by
    the test of [_maybe_finalize], with no judgement started. *)
Definition agent_gone (rid : string) (s : System) : Prop :=
  (∃ r, RACE_STATES s !! rid = Some r
        ∧ agent_ready r = false ∧ agent_run_id r ≠ None
        ∧ verdict r = None ∧ finalizing r = false)
  ∧ ∀ run, RUN_TO_RACE s !! run ≠ Some rid.

(** ** [llm.py]: what [judge_race] does with the judge's reply
    (lines 246-265)

    The model call and the JSON parse are the collaborator; the embedding
    starts from the parsed dictionary [verdict].  Three builtins are taken
    as they are: [float] on a string ([None]: [ValueError]), [float] on an
    integer ([None]: [OverflowError]), and [repr]. *)

(** [str.lower] on the ASCII letters; it is compared with the three
    lower-case ASCII words only. *)
Definition lower_ascii (c : ascii) : ascii :=
  let n := nat_of_ascii c in
  if ((65 <=? n) && (n <=? 90))%nat then ascii_of_nat (n + 32) else c.

Fixpoint lower (s : string) : string :=
  match s with
  | EmptyString => EmptyString
  | String c s' => String (lower_ascii c) (lower s')
  end.

(** The literal [1.0], which is [float(True)]. *)
Definition float_one : pyfloat := FFinite 1 0.

Inductive float_result :=
| FloatOk (f : pyfloat)
| FloatTypeError
| FloatValueError
| FloatOverflowError.

(** [required_keys], in the order [sorted] gives them. *)
Definition required_keys : list string :=
  ["agent_score"; "human_score"; "reasoning"; "winner"].

(** [winner in {"agent", "human", "tie"}]. *)
Definition known_winner (w : string) : bool :=
  String.eqb w "agent" || String.eqb w "human" || String.eqb w "tie".

Section JudgeRace.
Variable float_of_str : string → option pyfloat.
Variable float_of_int : Z → option pyfloat.
Variable py_repr : json → string.

(** [float(v)]. *)
Definition py_float (v : json) : float_result :=
  match v with
  | JNull => FloatTypeError
  | JBool b => FloatOk (if b then float_one else float_zero)
  | JInt z =>
      match float_of_int z with
      | Some f => FloatOk f
      | None => FloatOverflowError
      end
  | JFloat f => FloatOk f
  | JStr s =>
      match float_of_str s with
      | Some f => FloatOk f
      | None => FloatValueError
      end
  | JArr _ => FloatTypeError
  | JObj _ => FloatTypeError
  end.

(** [str(v)]. *)
Definition py_str (v : json) : string :=
  match v with
  | JStr s => s
  | _ => py_repr v
  end.

(** One round of the [for score_key in ...] loop (lines 259-263). *)
Definition convert_score (score_key : string) (v : json) : outcome pyfloat :=
  match py_float v with
  | FloatOk f => Return f
  | FloatTypeError | FloatValueError =>
      Raise (RuntimeError ("Judge response " +:+ score_key
                           +:+ " is not numeric: " +:+ py_repr v))
  | FloatOverflowError =>
      Raise (OverflowError "int too large to convert to float")
  end.

(** [judge_race] from line 246 on. *)
Definition judge_race (verdict : gmap string json) : outcome Verdict :=
  let missing := filter (λ k, verdict !! k = None) required_keys in
  match missing with
  | _ :: _ =>
      Raise (RuntimeError ("Judge response missing keys: "
                           +:+ String.concat ", " missing))
  | [] =>
      match verdict !! "winner", verdict !! "reasoning",
            verdict !! "agent_score", verdict !! "human_score" with
      | Some w, Some why, Some a, Some h =>
          let winner := lower (py_str w) in
          let winner := if known_winner winner then winner else "tie" in
          match convert_score "agent_score" a with
          | Raise e => Raise e
          | Return fa =>
              match convert_score "human_score" h with
              | Raise e => Raise e
              | Return fh => Return (mkVerdict winner why fa fh)
              end
          end
      | _, _, _, _ => Raise (KeyError "winner")
      end
  end.
End JudgeRace.

(** ** [server.py]: the event stream of a run ([RunState], lines 32-78)

    A listener is an [asyncio.Queue] object; objects are named by the order
    of their creation.  For each queue the model keeps what is still in it
    ([waiting]) and what its consumer has already taken out ([taken]). *)

Record ListenerQueue := mkListenerQueue {
  taken : list Event;
  waiting : list Event
}.

(** Everything that was ever put into the queue, in order. *)
Definition delivered (q : ListenerQueue) : list Event := taken q ++ waiting q.

(** [RunState]; [race_id] is [run_race_id], [_listeners] is [listeners],
    [_buffer] is [buffer], and [dispatch_done] is the [_dispatch_done]
    event.  [listener_queues] holds the queue objects that [subscribe] made,
    [next_listener] names the next one. *)
Record RunState := mkRunState {
  run_id : string;
  run_race_id : option string;
  queue : list Event;
  listeners : gset nat;
  buffer : list Event;
  dispatch_done : bool;
  listener_queues : gmap nat ListenerQueue;
  next_listener : nat
}.

(** [RunState.__init__]. *)
Definition new_run (run : string) (rid : option string) : RunState :=
  mkRunState run rid [] ∅ [] false ∅ 0.

(** [listener.put_nowait(event)]. *)
Definition put_nowait (e : Event) (q : ListenerQueue) : ListenerQueue :=
  mkListenerQueue (taken q) (waiting q ++ [e]).

(** The agent runner's [queue.put(event)]. *)
Definition run_put (e : Event) (st : RunState) : RunState :=
  mkRunState (run_id st) (run_race_id st) (queue st ++ [e]) (listeners st)
             (buffer st) (dispatch_done st) (listener_queues st)
             (next_listener st).

(** [for listener in list(self._listeners): listener.put_nowait(event)]. *)
Definition fan_out (e : Event) (ls : gset nat)
    (qs : gmap nat ListenerQueue) : gmap nat ListenerQueue :=
  map_imap (λ l q, Some (if bool_decide (l ∈ ls) then put_nowait e q else q)) qs.

(** [if self.race_id:] on an optional string. *)
Definition truthy_opt_str (o : option string) : bool :=
  match o with
  | Some s => truthy_str s
  | None => false
  end.

(** One iteration of [_dispatch_loop] (lines 47-54), in the process state
    [sys]; with the loop over, or nothing queued, nothing happens.  An
    exception out of the handler ends the loop through the [finally]. *)
Definition dispatch_one (now : Z) (st : RunState) (sys : System)
    : RunState * System :=
  if dispatch_done st then (st, sys)
  else
    match queue st with
    | [] => (st, sys)
    | e :: rest =>
        let '(out, sys') :=
          if truthy_opt_str (run_race_id st)
          then handle_run_event (run_id st) e now sys
          else (Return tt, sys) in
        match out with
        | Raise _ =>
            (mkRunState (run_id st) (run_race_id st) rest (listeners st)
                        (buffer st) true (listener_queues st)
                        (next_listener st), sys')
        | Return _ =>
            (mkRunState (run_id st) (run_race_id st) rest (listeners st)
                        (buffer st ++ [e]) (is_str (ev_type e) "complete")
                        (fan_out e (listeners st) (listener_queues st))
                        (next_listener st), sys')
        end
    end.

(** [subscribe] (lines 58-64): the new listener and the state. *)
Definition subscribe (st : RunState) : nat * RunState :=
  let l := next_listener st in
  let q := mkListenerQueue [] (buffer st) in
  (l,
   mkRunState (run_id st) (run_race_id st) (queue st)
              (if dispatch_done st then listeners st else {[l]} ∪ listeners st)
              (buffer st) (dispatch_done st)
              (<[l := q]> (listener_queues st)) (S l)).

(** [unsubscribe] (lines 66-67). *)
Definition unsubscribe (l : nat) (st : RunState) : RunState :=
  mkRunState (run_id st) (run_race_id st) (queue st) (listeners st ∖ {[l]})
             (buffer st) (dispatch_done st) (listener_queues st)
             (next_listener st).

(** The consumer's [await listener_queue.get()] when an event is waiting
    ([stream_events], line 134). *)
Definition listener_get (l : nat) (st : RunState) : RunState :=
  match listener_queues st !! l with
  | Some (mkListenerQueue got (e :: rest)) =>
      mkRunState (run_id st) (run_race_id st) (queue st) (listeners st)
                 (buffer st) (dispatch_done st)
                 (<[l := mkListenerQueue (got ++ [e]) rest]> (listener_queues st))
                 (next_listener st)
  | _ => st
  end.

(** What can happen to a run; a dispatch happens in whatever state the
    race manager is in at that moment. *)
Inductive RunOp :=
| RunPut (e : Event)
| RunDispatch (sys : System) (now : Z)
| RunSubscribe
| RunUnsubscribe (l : nat)
| RunGet (l : nat).

Definition run_exec_op (op : RunOp) (st : RunState) : RunState :=
  match op with
  | RunPut e => run_put e st
  | RunDispatch sys now => fst (dispatch_one now st sys)
  | RunSubscribe => snd (subscribe st)
  | RunUnsubscribe l => unsubscribe l st
  | RunGet l => listener_get l st
  end.

Definition run_exec_ops (ops : list RunOp) (st : RunState) : RunState :=
  fold_left (λ st op, run_exec_op op st) ops st.

(** The events the producer put, in order. *)
Definition puts_of (ops : list RunOp) : list Event :=
  omap (λ op, match op with RunPut e => Some e | _ => None end) ops.

(** Does the schedule unsubscribe the listener [l]? *)
Definition unsubscribes (l : nat) (ops : list RunOp) : bool :=
  existsb (λ op, match op with RunUnsubscribe l' => Nat.eqb l l' | _ => false end)
          ops.

(** ** Sample executions *)

Definition sample_task : RaceTask :=
  mkRaceTask "Capital" "Find a capital" "Look it up" "Look it up"
             "text_entry" "Names the capital" "A city name" [].

Definition status_event (st : string) : Event :=
  mkEvent (Some "status") (Some st) None None.
Definition live_url_event (url : string) : Event :=
  mkEvent (Some "live_url") None (Some url) None.
Definition result_event (res : string) : Event :=
  mkEvent (Some "result") None None (Some res).
Definition error_event : Event := mkEvent (Some "error") None None None.
Definition complete_event : Event := mkEvent (Some "complete") None None None.

(** The state a schedule leads to from the empty process. *)
Definition state_after (ops : list Op) : System :=
  default init_system (exec_ops ops init_system).

(** The agent finishes, then the human submits: the judgement is due. *)
Definition race_to_judging : list Op :=
  [OpCreateRace "race1" sample_task 100;
   OpRegisterAgentRun "race1" "run1" 101;
   OpRunEvent "run1" (status_event "running") 102;
   OpRunEvent "run1" (live_url_event "https://live.example/x") 103;
   OpRunEvent "run1" (result_event "Paris") 110;
   OpRunEvent "run1" complete_event 111;
   OpMarkHumanStarted "race1" 120;
   OpHumanSubmission "race1" (Some "Paris") 130 131].

(** The same, and the judge call then fails. *)
Definition race_judge_fails : list Op :=
  race_to_judging ++ [OpJudgementDone "race1" (JudgeRaised "timeout")].

(** The human submits before the agent has said anything. *)
Definition human_first : list Op :=
  [OpCreateRace "race1" sample_task 100;
   OpRegisterAgentRun "race1" "run1" 101;
   OpHumanSubmission "race1" (Some "Paris") 130 131].

(** The executor fails: [run_agent] puts [error] and then, from its
    [finally], [complete]. *)
Definition agent_fails : list Op :=
  [OpCreateRace "race1" sample_task 100;
   OpRegisterAgentRun "race1" "run1" 101;
   OpRunEvent "run1" (status_event "running") 102;
   OpRunEvent "run1" error_event 110;
   OpRunEvent "run1" complete_event 111].

(** The executor fails, and the human submits after that. *)
Definition error_complete_submission : list Op :=
  agent_fails ++ [OpHumanSubmission "race1" (Some "Paris") 130 131].

(** The same three calls with the submission first. *)
Definition submission_error_complete : list Op :=
  [OpCreateRace "race1" sample_task 100;
   OpRegisterAgentRun "race1" "run1" 101;
   OpRunEvent "run1" (status_event "running") 102;
   OpHumanSubmission "race1" (Some "Paris") 105 106;
   OpRunEvent "run1" error_event 110;
   OpRunEvent "run1" complete_event 111].

(** The same three calls with the submission between [error] and
    [complete]. *)
Definition error_submission_complete : list Op :=
  [OpCreateRace "race1" sample_task 100;
   OpRegisterAgentRun "race1" "run1" 101;
   OpRunEvent "run1" (status_event "running") 102;
   OpRunEvent "run1" error_event 110;
   OpHumanSubmission "race1" (Some "Paris") 110 111;
   OpRunEvent "run1" complete_event 112].

(** Calls that arrive after the verdict: a repeated [complete] and a
    second submission. *)
Definition late_calls : list Op :=
  [OpRunEvent "run1" complete_event 140;
   OpHumanSubmission "race1" (Some "Lyon") 150 151;
   OpMarkHumanStarted "race1" 152;
   OpRegisterAgentRun "race1" "run2" 153].

(** Stand-ins for the three builtins, enough for the sample replies:
    ["7.5"] is the one string that parses, every integer converts. *)
Definition sample_float_of_str (s : string) : option pyfloat :=
  if String.eqb s "7.5" then Some (FFinite 15 (-1)) else None.
Definition sample_float_of_int (z : Z) : option pyfloat := Some (FFinite z 0).
Definition sample_repr (v : json) : string :=
  match v with
  | JNull => "None"
  | JStr s => "'" +:+ s +:+ "'"
  | _ => "..."
  end.

(** A reply with an unknown winner and scores that convert. *)
Definition sample_reply : gmap string json :=
  <["winner" := JStr "Robot"]>
    (<["reasoning" := JStr "close"]>
       (<["agent_score" := JInt 6]> (<["human_score" := JStr "7.5"]> ∅))).

(** The listener [l], which held [pre] when [subscribe] returned it, in a
    later state of the run; [unsub] tells whether it was unsubscribed in
    between. *)
Definition tracked (l : nat) (pre : list Event) (unsub : bool)
    (st : RunState) : Prop :=
  ∃ q, listener_queues st !! l = Some q
    ∧ pre `prefix_of` delivered q
    ∧ delivered q `prefix_of` buffer st
    ∧ (l < next_listener st)%nat
    ∧ (l ∈ listeners st → delivered q = buffer st)
    ∧ (unsub = false →
       delivered q = buffer st ∧ (l ∈ listeners st ∨ dispatch_done st = true)).

(** Is [op] the call [unsubscribe(l)]? *)
Definition is_unsubscribe (l : nat) (op : RunOp) : bool :=
  match op with
  | RunUnsubscribe l' => Nat.eqb l l'
  | _ => false
  end.

(** A run, not bound to a race, that has dispatched three events. *)
Definition three_dispatched : list RunOp :=
  [RunPut (status_event "starting");
   RunPut (status_event "running");
   RunDispatch init_system 1;
   RunPut (result_event "Paris");
   RunDispatch init_system 2;
   RunDispatch init_system 3].

(** After the subscription: the run completes, and the consumer reads. *)
Definition then_completes : list RunOp :=
  [RunPut complete_event;
   RunGet 0;
   RunDispatch init_system 4;
   RunGet 0].

(** ** More of [race_manager.py], [server.py] and [script.py] *)

(** [clear_race] (lines 245-249): the race leaves the registry, and with
    it every index entry that points to it. *)
Definition clear_race (rid : string) : M unit :=
  fun s =>
    (Return tt,
     mkSystem (delete rid (RACE_STATES s))
              (filter (λ entry, entry.2 ≠ rid) (RUN_TO_RACE s))
              (pending_judgements s) (judge_calls s) (verdict_writes s)).

(** An event whose type is none of the five the handler knows, such as
    the executor's [log] events. *)
Definition unhandled_type (e : Event) : bool :=
  negb (is_str (ev_type e) "status" || is_str (ev_type e) "live_url"
        || is_str (ev_type e) "result" || is_str (ev_type e) "error"
        || is_str (ev_type e) "complete").

Definition log_event : Event := mkEvent (Some "log") None None None.

(** The server process: the [run_states] dictionary of [server.py] and
    the race manager's state. *)
Record Server := mkServer {
  run_states : gmap string RunState;
  manager : System
}.

(** [_launch_run] (lines 94-115), with the [uuid4] identifier as an
    argument; the task text and the handle of the runner task are not
    part of [RunState] here. *)
Definition launch_run (run : string) (rid : option string) (now : Z)
    (sv : Server) : outcome string * Server :=
  let runs := <[run := new_run run rid]> (run_states sv) in
  match rid with
  | Some race =>
      if truthy_str race then
        match register_agent_run race run now (manager sv) with
        | (Return _, sys') => (Return run, mkServer runs sys')
        | (Raise exn, sys') => (Raise exn, mkServer (delete run runs) sys')
        end
      else (Return run, mkServer runs (manager sv))
  | None => (Return run, mkServer runs (manager sv))
  end.

(** The loop of [run_cli] ([script.py], lines 15-20) over the events
    its queue is going to hold: the [events] list when it leaves the loop;
    [None] when no [complete] ever comes and it keeps waiting in
    [queue.get()].  The [await agent_task] after the loop is not part of
    it. *)
Fixpoint until_complete (evs : list Event) : option (list Event) :=
  match evs with
  | [] => None
  | e :: rest =>
      if is_str (ev_type e) "complete" then Some [e]
      else cons e <$> until_complete rest
  end.

(** An event other than [complete]. *)
Definition not_complete (e : Event) : Prop :=
  is_str (ev_type e) "complete" = false.

(** A schedule in which the human has submitted and the agent is still
    running. *)
Definition human_waits : list Op :=
  [OpCreateRace "race1" sample_task 100;
   OpRegisterAgentRun "race1" "run1" 101;
   OpRunEvent "run1" (status_event "running") 102;
   OpHumanSubmission "race1" (Some "Paris") 130 131].

(** A schedule in which the agent has a result and the human has not
    started. *)
Definition agent_waits : list Op :=
  [OpCreateRace "race1" sample_task 100;
   OpRegisterAgentRun "race1" "run1" 101;
   OpRunEvent "run1" (result_event "Paris") 110].


(** A reply whose human score is [null]. *)
Definition reply_null_human_score : gmap string json :=
  <["human_score" := JNull]> sample_reply.

(** [float] on an integer as CPython has it for large values: from
    [2 ** 1024] on it raises [OverflowError]. *)
Definition overflowing_float_of_int (z : Z) : option pyfloat :=
  if Z.abs z <? 2 ^ 1024 then Some (FFinite z 0) else None.

(** A reply whose human score is an integer too large for a float. *)
Definition reply_huge_human_score : gmap string json :=
  <["human_score" := JInt (2 ^ 1024)]> sample_reply.

(** A run that has completed, with one listener. *)
Definition run_completed : list RunOp :=
  [RunSubscribe;
   RunPut (status_event "running");
   RunDispatch init_system 1;
   RunPut complete_event;
   RunDispatch init_system 2].

(** * Proofs *)

(** ** Counting lemmas *)

Lemma occurrences_app x l1 l2 :
  occurrences x (l1 ++ l2) = (occurrences x l1 + occurrences x l2)%nat.
Proof. induction l1 as [|y l1 IH]; simpl; [done | rewrite IH; lia]. Qed.

Lemma occurrences_snoc_eq x l :
  occurrences x (l ++ [x]) = S (occurrences x l).
Proof. rewrite occurrences_app. simpl. rewrite String.eqb_refl. lia. Qed.

Lemma occurrences_snoc_ne x y l :
  x ≠ y → occurrences x (l ++ [y]) = occurrences x l.
Proof.
  intros Hne. rewrite occurrences_app. simpl.
  destruct (String.eqb_spec x y); [done | lia].
Qed.

Lemma occurrences_elem x l : x ∈ l → (0 < occurrences x l)%nat.
Proof.
  induction 1 as [y l | y z l Hin IH]; simpl.
  - rewrite String.eqb_refl. lia.
  - lia.
Qed.

Lemma occurrences_remove_first_eq x l :
  (0 < occurrences x l)%nat →
  S (occurrences x (remove_first x l)) = occurrences x l.
Proof.
  induction l as [|y l IH]; simpl; [lia |].
  destruct (String.eqb_spec x y) as [->|Hne]; simpl.
  - lia.
  - destruct (String.eqb_spec x y); [done |]. intros H. rewrite <- IH; lia.
Qed.

Lemma occurrences_remove_first_ne x y l :
  x ≠ y → occurrences x (remove_first y l) = occurrences x l.
Proof.
  intros Hne. induction l as [|z l IH]; simpl; [done |].
  destruct (String.eqb_spec y z) as [->|Hyz]; simpl.
  - destruct (String.eqb_spec x z); [done | lia].
  - by rewrite IH.
Qed.

(** ** The race object under each operation *)

Lemma truthy_ts_pos t : 0 < t → truthy_ts (Some t) = true.
Proof. intros H. unfold truthy_ts. destruct (Z.eqb_spec t 0); [lia | done]. Qed.

Lemma ts_or_pos t now : 0 < t → ts_or (Some t) now = t.
Proof. intros H. unfold ts_or. destruct (Z.eqb_spec t 0); [lia | done]. Qed.

Lemma ts_or_none now : ts_or None now = now.
Proof. done. Qed.

#[local] Arguments truthy_ts : simpl never.
#[local] Arguments ts_or : simpl never.

Lemma new_participant_ok : participant_ok new_participant.
Proof. split; simpl; done. Qed.

Lemma new_race_inv rid t now : race_inv 0 0 0 (new_race rid t now).
Proof.
  split; [split; simpl; try done | done].
  - intros _. split; [done | by left].
  - left. done.
Qed.
Lemma register_run_on_inv np nw nc r run now :
  race_inv np nw nc r → agent_run_id r = None → 0 < now →
  race_inv np nw nc (register_run_on run now r)
  ∧ agent_run_id (register_run_on run now r) ≠ None.
Proof.
  intros [[] Hs] Hnone Hnow.
  destruct (inv_norun0 Hnone) as [Hag Hst].
  destruct r as [rid t ca st ar ag hu sub v fin]; simpl in *. subst ar ag.
  assert (fin = false) as ->.
  { destruct fin; [|done]. destruct inv_judging0 as [_ H]. specialize (H eq_refl).
    destruct Hst; congruence. }
  assert (v = None) as ->.
  { destruct v; [|done]. destruct inv_completed0 as [_ H].
    assert (st = completed) by (apply H; done). destruct Hst; congruence. }
  unfold register_run_on; simpl.
  split; [|done]. split; [split; simpl; try done|].
  all: try (split; intros; done).
  split; simpl; intros; simplify_eq; done.
Qed.

(** [_maybe_finalize] on the race object: when the guard lets the call
    through, the flag and the status are set and one task is created. *)
Lemma finalize_inv np nw nc r :
  race_pre np nw nc r →
  if should_finalize r
  then race_inv (S np) nw (S nc) (set_status judging (set_finalizing true r))
  else race_inv np nw nc r.
Proof.
  intros Hpre. destruct (should_finalize r) eqn:Hs; [|by split].
  destruct Hpre. unfold should_finalize in Hs.
  destruct r as [rid t ca st ar ag hu sub v fin]; simpl in *.
  destruct v; [done|]. destruct fin; [done|].
  split; [split; simpl; try done; try lia|done].
  - intros ->. destruct (inv_norun0 eq_refl) as [-> _].
    unfold agent_ready in Hs. simpl in Hs. done.
Qed.

(** The judgement task's continuation on the race object. *)
Lemma judgement_on_inv np nw nc r o :
  race_inv np nw nc r → (0 < np)%nat →
  race_inv (pred np) (S nw) nc (judgement_on o r).
Proof.
  intros [[] Hs] Hnp.
  destruct r as [rid t ca st ar ag hu sub v fin]; simpl in *.
  destruct fin; [|lia]. rewrite (inv_excl0 eq_refl) in *. subst np nw nc.
  split; [|by destruct o].
  split; destruct o; simpl; try done.
  all: try (split; intros; done).
  all: intros ->; destruct (inv_norun0 eq_refl) as [_ [->| ->]];
    destruct inv_judging0 as [_ H]; specialize (H eq_refl); done.
Qed.

Lemma start_human_on_inv np nw nc r now :
  race_inv np nw nc r → 0 < now →
  race_inv np nw nc (start_human_on now r).
Proof.
  intros [[] Hs] Hnow. unfold start_human_on.
  destruct (String.eqb_spec (p_status (human r)) "completed") as [Hc|Hc];
    [by split|].
  destruct (String.eqb_spec (p_status (human r)) "pending") as [Hp|Hp];
    [|by split].
  destruct inv_human_status0 as [(_ & Hst & Hco & Hsub)|[(Hr & _)|(Hr & _)]];
    [|congruence..].
  destruct r as [rid t ca st ar ag hu sub v fin]; simpl in *.
  destruct hu as [hs hst hco hd hr hl]; simpl in *. subst hs hst hco sub.
  destruct inv_human0 as [H1 H2 H3 H4]; simpl in *. unfold elapsed in H4; simpl in H4.
  subst hd.
  assert (Hready : should_finalize
    (mkRaceState rid t ca st ar ag
       (mkParticipantState "running" (Some now) None None hr hl) None v fin) = false).
  { unfold should_finalize, human_ready in *; simpl in *.
    destruct v; [done|]. destruct fin; [done|].
    destruct (String.eqb (task_type t) "text_entry"); simpl in *; [done|].
    by rewrite andb_false_r. }
  destruct st; simpl.
  all: split; [split; simpl; try done|].
  all: try (split; intros; done).
  all: try (split; simpl; intros; simplify_eq; done).
  all: try (right; left; done).
  all: try done.
  all: intuition congruence.
Qed.

Lemma submit_on_pre np nw nc r sub now1 now2 :
  race_inv np nw nc r → 0 < now1 → 0 < now2 →
  race_pre np nw nc (submit_on sub now1 now2 r).
Proof.
  intros [[] Hs] Hn1 Hn2.
  destruct r as [rid t ca st ar ag hu hsub v fin]; simpl in *.
  destruct hu as [hs hst hco hd hr hl]; simpl in *.
  destruct inv_human0 as [H1 H2 H3 H4]; simpl in *.
  unfold elapsed in H4; simpl in H4.
  unfold human_ok in *; simpl in *.
  unfold submit_on; simpl.
  destruct inv_human_status0 as
    [(-> & -> & -> & ->)|[(-> & Hst & -> & ->)|(-> & Hco & Hsub)]]; simpl.
  - subst hd. rewrite !ts_or_none, (truthy_ts_pos now1 Hn1); simpl.
    destruct (String.eqb (task_type t) "text_entry"); simpl.
    all: split; simpl; try done.
    all: try (split; simpl; unfold elapsed; simpl; intros; simplify_eq; done).
    all: try (right; right; done).
  - destruct hst as [t0|]; [|done]. pose proof (H1 t0 eq_refl) as Ht0.
    subst hd. rewrite !ts_or_none, (truthy_ts_pos t0 Ht0); simpl.
    destruct (String.eqb (task_type t) "text_entry"); simpl.
    all: split; simpl; try done.
    all: try (split; simpl; unfold elapsed; simpl; intros; simplify_eq; done).
    all: try (right; right; done).
  - destruct hco as [c|]; [|done]. pose proof (H2 c eq_refl) as Hc.
    destruct hst as [t0|]; [|by destruct H3]. pose proof (H1 t0 eq_refl) as Ht0.
    subst hd. rewrite (truthy_ts_pos t0 Ht0), (ts_or_pos c now2 Hc); simpl.
    destruct (String.eqb (task_type t) "text_entry"); simpl.
    all: split; simpl; try done.
    all: try (split; simpl; unfold elapsed; simpl; intros; simplify_eq; done).
    all: try (right; right; done).
Qed.

(** The [if]/[elif] chain of [handle_run_event] on a race that has a run
    bound. *)
Lemma apply_event_pre np nw nc r e now :
  race_inv np nw nc r → agent_run_id r ≠ None → 0 < now →
  race_pre np nw nc (apply_event e now r).
Proof.
  intros [[Ip Iw Ic Ie Ij Icm Inr Ia Ias Ih Ihs] Hs] Hrun Hnow.
  destruct r as [rid t ca st ar ag hu hsub v fin]; simpl in *.
  destruct ag as [gs gst gco gd gr gl]; simpl in *.
  destruct Ia as [Hgst Hgco Hgcs Hgd]; simpl in *.
  unfold elapsed in Hgd; simpl in Hgd.
  destruct gst as [t0|]; [|by destruct (Ias Hrun)].
  pose proof (Hgst t0 eq_refl) as Ht0.
  destruct ar as [run0|]; [|done].
  unfold apply_event.
  destruct (is_str (ev_type e) "status").
  { unfold on_status; simpl.
    destruct (ev_status e) as [s|]; [|close_pre].
    destruct (truthy_str s); [|close_pre].
    destruct (String.eqb s "running"); simpl; close_pre. }
  destruct (is_str (ev_type e) "live_url").
  { unfold on_live_url; simpl.
    destruct (ev_url e) as [s|]; [|close_pre].
    destruct (truthy_str s); close_pre. }
  destruct (is_str (ev_type e) "result").
  { unfold on_result; simpl.
    destruct (ev_result e) as [s|]; [|close_pre].
    rewrite (truthy_ts_pos t0 Ht0); simpl.
    destruct gco as [c|].
    - pose proof (Hgco c eq_refl) as Hc. rewrite (ts_or_pos c now Hc). close_pre.
    - rewrite ts_or_none. close_pre. }
  destruct (is_str (ev_type e) "error").
  { unfold on_error; simpl. close_pre. }
  destruct (is_str (ev_type e) "complete"); [|close_pre].
  unfold on_complete; simpl.
  rewrite (truthy_ts_pos t0 Ht0); simpl.
  destruct gco as [c|].
  - pose proof (Hgco c eq_refl) as Hc. rewrite (ts_or_pos c now Hc).
    subst gd; simpl.
    destruct st; simpl; try close_pre.
    all: destruct (String.eqb (p_status hu) "completed"); close_pre.
  - rewrite ts_or_none. subst gd; simpl. 
    destruct st; simpl; try close_pre.
    all: destruct (String.eqb (p_status hu) "completed"); close_pre.
Qed.

(** ** The process state under each operation *)

Lemma maybe_finalize_stored s rid r1 m P C W :
  maybe_finalize rid (mkSystem (<[rid := r1]> (RACE_STATES s)) m P C W)
  = (Return tt,
     if should_finalize r1 then
       mkSystem (<[rid := finalize_on r1]> (RACE_STATES s)) m
                (P ++ [rid]) (C ++ [rid]) W
     else mkSystem (<[rid := r1]> (RACE_STATES s)) m P C W).
Proof.
  unfold maybe_finalize, bind, get_race, finalize_on; simpl.
  rewrite lookup_insert_eq.
  destruct (should_finalize r1); [|done].
  unfold store_race, create_judgement_task; simpl.
  by rewrite insert_insert_eq.
Qed.

Lemma handle_run_event_bound s run e now rid r :
  RUN_TO_RACE s !! run = Some rid → truthy_str rid = true →
  RACE_STATES s !! rid = Some r →
  handle_run_event run e now s
  = (Return tt,
     after_finalize s rid (apply_event e now r)
       (if is_str (ev_type e) "complete" then delete run (RUN_TO_RACE s)
        else RUN_TO_RACE s)).
Proof.
  intros Hrun Hrid Hr. unfold handle_run_event. rewrite Hrun, Hrid.
  unfold bind at 1. unfold get_race at 1. rewrite Hr.
  unfold bind at 1. unfold store_race at 1.
  unfold bind at 1.
  destruct (is_str (ev_type e) "complete"); simpl;
    rewrite maybe_finalize_stored; done.
Qed.

Lemma record_human_submission_known s rid r sub now1 now2 :
  RACE_STATES s !! rid = Some r →
  snd (record_human_submission rid sub now1 now2 s)
  = after_finalize s rid (submit_on sub now1 now2 r) (RUN_TO_RACE s).
Proof.
  intros Hr. unfold record_human_submission.
  unfold bind at 1. unfold get_race at 1. rewrite Hr.
  unfold bind at 1. unfold store_race at 1.
  unfold bind at 1. rewrite maybe_finalize_stored.
  unfold after_finalize, get_race.
  destruct (should_finalize _); simpl; rewrite lookup_insert_eq; done.
Qed.

Lemma maybe_finalize_known s rid r :
  RACE_STATES s !! rid = Some r →
  snd (maybe_finalize rid s) = after_finalize s rid r (RUN_TO_RACE s)
  ∨ (should_finalize r = false ∧ snd (maybe_finalize rid s) = s).
Proof.
  intros Hr. unfold maybe_finalize, bind, get_race, after_finalize, finalize_on.
  rewrite Hr. destruct (should_finalize r); [left; done | right; done].
Qed.

(** What the handlers leave alone. *)
Lemma apply_event_frame e now r :
  let r' := apply_event e now r in
  race_id r' = race_id r ∧ task r' = task r ∧ created_at r' = created_at r
  ∧ agent_run_id r' = agent_run_id r ∧ human r' = human r
  ∧ human_submission r' = human_submission r ∧ verdict r' = verdict r
  ∧ finalizing r' = finalizing r.
Proof.
  destruct r as [rid t ca st ar ag hu hsub v fin].
  unfold apply_event, on_status, on_live_url, on_result, on_error, on_complete.
  simpl. repeat (case_match; simpl); done.
Qed.

Lemma submit_on_frame sub now1 now2 r :
  let r' := submit_on sub now1 now2 r in
  race_id r' = race_id r ∧ task r' = task r ∧ created_at r' = created_at r
  ∧ status r' = status r ∧ agent_run_id r' = agent_run_id r
  ∧ agent r' = agent r ∧ verdict r' = verdict r
  ∧ finalizing r' = finalizing r.
Proof.
  destruct r as [rid t ca st ar ag hu hsub v fin].
  unfold submit_on. simpl. repeat (case_match; simpl); done.
Qed.

Lemma start_human_on_frame now r :
  let r' := start_human_on now r in
  race_id r' = race_id r ∧ task r' = task r ∧ created_at r' = created_at r
  ∧ agent_run_id r' = agent_run_id r ∧ agent r' = agent r
  ∧ human_submission r' = human_submission r ∧ verdict r' = verdict r
  ∧ finalizing r' = finalizing r.
Proof.
  destruct r as [rid t ca st ar ag hu hsub v fin].
  unfold start_human_on. simpl. repeat (case_match; simpl); done.
Qed.

Lemma finalize_on_frame r :
  let r' := finalize_on r in
  race_id r' = race_id r ∧ task r' = task r ∧ created_at r' = created_at r
  ∧ agent_run_id r' = agent_run_id r ∧ agent r' = agent r ∧ human r' = human r
  ∧ human_submission r' = human_submission r ∧ verdict r' = verdict r.
Proof. unfold finalize_on. destruct (should_finalize r); done. Qed.

Lemma judgement_on_frame o r :
  let r' := judgement_on o r in
  race_id r' = race_id r ∧ task r' = task r ∧ created_at r' = created_at r
  ∧ agent_run_id r' = agent_run_id r ∧ agent r' = agent r ∧ human r' = human r
  ∧ human_submission r' = human_submission r.
Proof. destruct o; done. Qed.

(** One race object is replaced; the histories change for that race only;
    the index gains entries for that race only. *)
Lemma sys_ok_update s rid r r' m P C W :
  sys_ok s →
  RACE_STATES s !! rid = Some r →
  race_inv (occurrences rid P) (occurrences rid W) (occurrences rid C) r' →
  (∀ x, x ≠ rid →
     occurrences x P = occurrences x (pending_judgements s)
     ∧ occurrences x W = occurrences x (verdict_writes s)
     ∧ occurrences x C = occurrences x (judge_calls s)) →
  (agent_run_id r ≠ None → agent_run_id r' ≠ None) →
  (∀ run x, m !! run = Some x →
     RUN_TO_RACE s !! run = Some x ∨ (x = rid ∧ agent_run_id r' ≠ None)) →
  sys_ok (mkSystem (<[rid := r']> (RACE_STATES s)) m P C W).
Proof.
  intros (Hraces & Hroute & Hfresh) Hr Hinv Hother Hkeep Hm.
  split; [|split]; simpl.
  - intros x r0 Hx. destruct (decide (x = rid)) as [->|Hne].
    + rewrite lookup_insert_eq in Hx. by simplify_eq.
    + rewrite lookup_insert_ne in Hx by done.
      destruct (Hother x Hne) as (-> & -> & ->). by apply Hraces.
  - intros run x Hx. destruct (Hm run x Hx) as [Hold|[-> Hnew]].
    + destruct (Hroute run x Hold) as (r0 & Hr0 & Hb).
      destruct (decide (x = rid)) as [->|Hne].
      * exists r'. rewrite lookup_insert_eq. split; [done|].
        apply Hkeep. by simplify_eq.
      * exists r0. by rewrite lookup_insert_ne.
    + exists r'. by rewrite lookup_insert_eq.
  - intros x Hx. destruct (decide (x = rid)) as [->|Hne].
    + by rewrite lookup_insert_eq in Hx.
    + rewrite lookup_insert_ne in Hx by done.
      destruct (Hother x Hne) as (-> & -> & ->). by apply Hfresh.
Qed.

Lemma sys_ok_after_finalize s rid r r1 m :
  sys_ok s →
  RACE_STATES s !! rid = Some r →
  race_pre (occurrences rid (pending_judgements s))
           (occurrences rid (verdict_writes s))
           (occurrences rid (judge_calls s)) r1 →
  (agent_run_id r ≠ None → agent_run_id r1 ≠ None) →
  (∀ run x, m !! run = Some x →
     RUN_TO_RACE s !! run = Some x ∨ (x = rid ∧ agent_run_id r1 ≠ None)) →
  sys_ok (after_finalize s rid r1 m).
Proof.
  intros Hok Hr Hpre Hkeep Hm. pose proof (finalize_inv _ _ _ _ Hpre) as Hfin.
  unfold after_finalize, finalize_on. destruct (should_finalize r1).
  - eapply sys_ok_update; eauto.
    + by rewrite !occurrences_snoc_eq.
    + intros x Hne. by rewrite !occurrences_snoc_ne.
  - eapply sys_ok_update; eauto.
Qed.

Lemma sys_ok_init : sys_ok init_system.
Proof. split; [|split]; simpl; intros; simplify_map_eq; done. Qed.

(** Every enabled step keeps the invariant. *)
Lemma exec_op_ok op s :
  sys_ok s → op_enabled op s = true → sys_ok (exec_op op s).
Proof.
  intros Hok Hen. pose proof Hok as (Hraces & Hroute & Hfresh).
  destruct op as [rid t now|rid run now|run e now|rid sub now1 now2|rid now
                 |rid|rid o]; simpl in *.
  - (* create_race *)
    apply andb_prop in Hen as [Hnow Hnew]. apply bool_decide_eq_true in Hnew.
    destruct (Hfresh rid Hnew) as (HP & HW & HC).
    split; [|split]; simpl.
    + intros x r0 Hx. destruct (decide (x = rid)) as [->|Hne].
      * rewrite lookup_insert_eq in Hx. simplify_eq.
        rewrite HP, HW, HC. apply new_race_inv.
      * rewrite lookup_insert_ne in Hx by done. by apply Hraces.
    + intros run x Hx. destruct (Hroute run x Hx) as (r0 & Hr0 & Hb).
      exists r0. split; [|done]. rewrite lookup_insert_ne; [done|congruence].
    + intros x Hx. destruct (decide (x = rid)) as [->|Hne].
      * by rewrite lookup_insert_eq in Hx.
      * rewrite lookup_insert_ne in Hx by done. by apply Hfresh.
  - (* register_agent_run *)
    apply Z.ltb_lt in Hen.
    unfold register_agent_run, bind, get_race.
    destruct (RACE_STATES s !! rid) as [r|] eqn:Hr; [|done].
    destruct (agent_run_id r) eqn:Hrun; [done|]. simpl.
    destruct (register_run_on_inv _ _ _ r run now (Hraces _ _ Hr) Hrun Hen)
      as [Hinv Hb].
    eapply sys_ok_update; eauto.
    intros run' x Hx. destruct (decide (run = run')) as [->|Hne].
    + rewrite lookup_insert_eq in Hx. simplify_eq. by right.
    + rewrite lookup_insert_ne in Hx by done. by left.
  - (* handle_run_event *)
    apply Z.ltb_lt in Hen.
    destruct (RUN_TO_RACE s !! run) as [rid|] eqn:Hrun;
      [|by unfold handle_run_event; rewrite Hrun].
    destruct (truthy_str rid) eqn:Hrid;
      [|by unfold handle_run_event; rewrite Hrun, Hrid].
    destruct (Hroute _ _ Hrun) as (r & Hr & Hb).
    rewrite (handle_run_event_bound s run e now rid r) by done. simpl.
    eapply sys_ok_after_finalize; eauto.
    + eapply apply_event_pre; eauto.
    + intros _. by rewrite (proj1 (proj2 (proj2 (proj2 (apply_event_frame e now r))))).
    + intros run' x Hx. left.
      destruct (is_str (ev_type e) "complete"); [|done].
      apply lookup_delete_Some in Hx. tauto.
  - (* record_human_submission *)
    apply andb_prop in Hen as [Hn1 Hn2]. apply Z.ltb_lt in Hn1, Hn2.
    destruct (RACE_STATES s !! rid) as [r|] eqn:Hr;
      [|by unfold record_human_submission, bind, get_race; rewrite Hr].
    rewrite (record_human_submission_known s rid r) by done.
    eapply sys_ok_after_finalize; eauto.
    + eapply submit_on_pre; eauto.
    + by rewrite (proj1 (proj2 (proj2 (proj2 (proj2 (submit_on_frame sub now1 now2 r)))))).
  - (* mark_human_started *)
    apply Z.ltb_lt in Hen.
    unfold mark_human_started, bind, get_race.
    destruct (RACE_STATES s !! rid) as [r|] eqn:Hr; [|done]. simpl.
    eapply sys_ok_update; eauto.
    + eapply start_human_on_inv; eauto.
    + by rewrite (proj1 (proj2 (proj2 (proj2 (start_human_on_frame now r))))).
  - (* _maybe_finalize *)
    destruct (RACE_STATES s !! rid) as [r|] eqn:Hr;
      [|by unfold maybe_finalize, bind, get_race; rewrite Hr].
    destruct (maybe_finalize_known s rid r Hr) as [->|[_ ->]]; [|done].
    eapply sys_ok_after_finalize; eauto. by apply Hraces.
  - (* _run_judgement *)
    apply bool_decide_eq_true in Hen. apply occurrences_elem in Hen.
    unfold run_judgement, bind, get_race.
    destruct (RACE_STATES s !! rid) as [r|] eqn:Hr.
    2:{ destruct (Hfresh rid Hr) as (HP & _). lia. }
    simpl. eapply sys_ok_update; eauto.
    + rewrite occurrences_snoc_eq.
      pose proof (occurrences_remove_first_eq rid _ Hen) as Hrm.
      replace (occurrences rid (remove_first rid (pending_judgements s)))
        with (pred (occurrences rid (pending_judgements s))) by lia.
      apply judgement_on_inv; [by apply Hraces | done].
    + intros x Hne. rewrite occurrences_snoc_ne by done.
      by rewrite occurrences_remove_first_ne.
    + by destruct o.
Qed.

(** Every reachable state satisfies the invariant. *)
Lemma exec_ops_ok ops s s' :
  sys_ok s → exec_ops ops s = Some s' → sys_ok s'.
Proof.
  revert s. induction ops as [|op ops IH]; simpl; intros s Hok Hrun.
  - by simplify_eq.
  - destruct (op_enabled op s) eqn:Hen; [|done].
    eapply IH; [|done]. by apply exec_op_ok.
Qed.

Lemma reachable_ok s : reachable s → sys_ok s.
Proof. intros [ops Hops]. eapply exec_ops_ok; [apply sys_ok_init | done]. Qed.

(** ** One race along an execution *)

Lemma race_later_refl r : race_later r r.
Proof. split; auto. Qed.

Lemma race_later_trans r1 r2 r3 :
  race_later r1 r2 → race_later r2 r3 → race_later r1 r3.
Proof. intros [] []. split; eauto. lia. Qed.

Lemma apply_event_later np nw nc e now r :
  race_inv np nw nc r → race_later r (apply_event e now r).
Proof.
  intros [[Ip Iw Ic Ie Ij Icm Inr Ia Ias Ih Ihs] Hs].
  destruct (apply_event_frame e now r) as (_ & _ & _ & _ & Hh & _ & Hv & _).
  destruct Ia as [Hgst Hgco _ _].
  split; rewrite ?Hh, ?Hv; auto.
  all: destruct r as [rid t ca st ar ag hu hsub v fin]; simpl in *.
  all: destruct ag as [gs gst gco gd gr gl]; simpl in *.
  all: unfold apply_event, on_status, on_live_url, on_result, on_error,
         on_complete; simpl.
  - destruct st; repeat (case_match; simpl in *; try lia; try discriminate).
  - intros t0 ->. repeat (case_match; simpl; try done).
  - intros c ->. pose proof (Hgco c eq_refl) as Hc.
    rewrite !(ts_or_pos c now Hc). repeat (case_match; simpl; try done).
Qed.

Lemma finalize_on_later np nw nc r :
  race_pre np nw nc r → race_later r (finalize_on r).
Proof.
  intros [Ip Iw Ic Ie Ij Icm Inr Ia Ias Ih Ihs].
  unfold finalize_on. destruct (should_finalize r) eqn:Hs;
    [|apply race_later_refl].
  split; simpl; auto.
  unfold should_finalize in Hs. destruct (verdict r) eqn:Hv; [done|].
  destruct (status r); simpl; try lia.
  destruct Icm as [H _]. by specialize (H eq_refl).
Qed.

Lemma submit_on_later np nw nc sub now1 now2 r :
  race_inv np nw nc r → race_later r (submit_on sub now1 now2 r).
Proof.
  intros [[Ip Iw Ic Ie Ij Icm Inr Ia Ias Ih Ihs] Hs].
  destruct (submit_on_frame sub now1 now2 r)
    as (_ & _ & _ & Hst & _ & Hag & Hv & _).
  destruct Ih as [Hhst Hhco _ _].
  split; rewrite ?Hst, ?Hag, ?Hv; auto.
  all: destruct r as [rid t ca st ar ag hu hsub v fin]; simpl in *.
  all: destruct hu as [hs hst hco hd hr hl]; simpl in *.
  all: unfold human_ok in Ihs; simpl in Ihs.
  all: unfold submit_on; simpl.
  - intros t0 ->.
    destruct Ihs as [(_ & ? & _)|[(-> & _)|(-> & _)]]; [done|..]; simpl.
    all: repeat (case_match; simpl; try done).
  - intros c ->. pose proof (Hhco c eq_refl) as Hc.
    repeat (case_match; simpl; rewrite ?(ts_or_pos c now2 Hc); try done).
Qed.

Lemma start_human_on_later np nw nc now r :
  race_inv np nw nc r → race_later r (start_human_on now r).
Proof.
  intros [[Ip Iw Ic Ie Ij Icm Inr Ia Ias Ih Ihs] Hs].
  destruct (start_human_on_frame now r) as (_ & _ & _ & _ & Hag & _ & Hv & _).
  destruct Ih as [Hhst Hhco _ _].
  split; rewrite ?Hag, ?Hv; auto.
  all: destruct r as [rid t ca st ar ag hu hsub v fin]; simpl in *.
  all: destruct hu as [hs hst hco hd hr hl]; simpl in *.
  all: unfold start_human_on; simpl.
  - destruct st; repeat (case_match; simpl in *; try lia; try discriminate).
  - intros t0 ->. pose proof (Hhst t0 eq_refl) as Ht0.
    repeat (case_match; simpl; rewrite ?(ts_or_pos t0 now Ht0); try done).
  - intros c ->. repeat (case_match; simpl; try done).
Qed.

Lemma register_run_on_later np nw nc run now r :
  race_inv np nw nc r → agent_run_id r = None →
  race_later r (register_run_on run now r).
Proof.
  intros [[Ip Iw Ic Ie Ij Icm Inr Ia Ias Ih Ihs] Hs] Hnone.
  destruct (Inr Hnone) as [Hag Hst].
  destruct r as [rid t ca st ar ag hu hsub v fin]; simpl in *. subst ag.
  split; simpl; auto; try done.
  destruct Hst as [-> | ->]; simpl; lia.
Qed.

Lemma judgement_on_later np nw nc o r :
  race_inv np nw nc r → finalizing r = true →
  race_later r (judgement_on o r).
Proof.
  intros [[Ip Iw Ic Ie Ij Icm Inr Ia Ias Ih Ihs] Hs] Hfin.
  pose proof (Ie Hfin) as Hv.
  destruct r as [rid t ca st ar ag hu hsub v fin]; simpl in *. subst v.
  split; destruct o; simpl; auto; try done.
  all: destruct st; simpl; lia.
Qed.

(** A step of the process keeps the race at rest and moves it forward. *)
Lemma race_step_later np nw nc r r' :
  race_inv np nw nc r → race_step r r' → race_later r r'.
Proof.
  intros Hinv Hstep.
  destruct Hstep as [|run now Hnone Hnow|e now Hrun Hnow|sub now1 now2 Hn1 Hn2
                    |now Hnow| |o Hfin].
  - apply race_later_refl.
  - by eapply register_run_on_later.
  - eapply race_later_trans; [by eapply apply_event_later|].
    eapply finalize_on_later. by eapply apply_event_pre.
  - eapply race_later_trans; [by eapply submit_on_later|].
    eapply finalize_on_later. by eapply submit_on_pre.
  - by eapply start_human_on_later.
  - eapply finalize_on_later. apply Hinv.
  - by eapply judgement_on_later.
Qed.

(** What a step of the process does to a registered race. *)
Lemma exec_op_race_step op s rid r :
  sys_ok s → op_enabled op s = true → RACE_STATES s !! rid = Some r →
  ∃ r', RACE_STATES (exec_op op s) !! rid = Some r' ∧ race_step r r'.
Proof.
  intros Hok Hen Hr. pose proof Hok as (Hraces & Hroute & Hfresh).
  destruct op as [rid0 t now|rid0 run now|run e now|rid0 sub now1 now2|rid0 now
                 |rid0|rid0 o]; simpl in *.
  - apply andb_prop in Hen as [Hnow Hnew]. apply bool_decide_eq_true in Hnew.
    exists r. split; [|constructor].
    rewrite lookup_insert_ne; [done | congruence].
  - apply Z.ltb_lt in Hen.
    unfold register_agent_run, bind, get_race.
    destruct (RACE_STATES s !! rid0) as [r0|] eqn:Hr0;
      [|exists r; split; [done|constructor]].
    destruct (agent_run_id r0) eqn:Hrun; [exists r; split; [done|constructor]|].
    simpl. destruct (decide (rid0 = rid)) as [->|Hne].
    + simplify_eq. rewrite lookup_insert_eq. eexists; split; [done|].
      by constructor.
    + rewrite lookup_insert_ne by done. exists r; split; [done|constructor].
  - apply Z.ltb_lt in Hen.
    destruct (RUN_TO_RACE s !! run) as [rid0|] eqn:Hrun;
      [|unfold handle_run_event; rewrite Hrun; exists r; split;
        [done|constructor]].
    destruct (truthy_str rid0) eqn:Hrid;
      [|unfold handle_run_event; rewrite Hrun, Hrid; exists r; split;
        [done|constructor]].
    destruct (Hroute _ _ Hrun) as (r0 & Hr0 & Hb).
    rewrite (handle_run_event_bound s run e now rid0 r0) by done. simpl.
    unfold after_finalize, finalize_on.
    destruct (decide (rid0 = rid)) as [->|Hne].
    + simplify_eq. exists (finalize_on (apply_event e now r)).
      split; [|by constructor]. unfold finalize_on.
      destruct (should_finalize _); simpl; by rewrite lookup_insert_eq.
    + exists r. split; [|constructor].
      destruct (should_finalize _); simpl; by rewrite lookup_insert_ne.
  - apply andb_prop in Hen as [Hn1 Hn2]. apply Z.ltb_lt in Hn1, Hn2.
    destruct (RACE_STATES s !! rid0) as [r0|] eqn:Hr0;
      [|unfold record_human_submission, bind, get_race; rewrite Hr0;
        exists r; split; [done|constructor]].
    rewrite (record_human_submission_known s rid0 r0) by done.
    unfold after_finalize, finalize_on.
    destruct (decide (rid0 = rid)) as [->|Hne].
    + simplify_eq. exists (finalize_on (submit_on sub now1 now2 r)).
      split; [|by constructor]. unfold finalize_on.
      destruct (should_finalize _); simpl; by rewrite lookup_insert_eq.
    + exists r. split; [|constructor].
      destruct (should_finalize _); simpl; by rewrite lookup_insert_ne.
  - apply Z.ltb_lt in Hen.
    unfold mark_human_started, bind, get_race.
    destruct (RACE_STATES s !! rid0) as [r0|] eqn:Hr0;
      [|exists r; split; [done|constructor]].
    simpl. destruct (decide (rid0 = rid)) as [->|Hne].
    + simplify_eq. rewrite lookup_insert_eq. eexists; split; [done|].
      by constructor.
    + rewrite lookup_insert_ne by done. exists r; split; [done|constructor].
  - destruct (RACE_STATES s !! rid0) as [r0|] eqn:Hr0;
      [|unfold maybe_finalize, bind, get_race; rewrite Hr0;
        exists r; split; [done|constructor]].
    destruct (maybe_finalize_known s rid0 r0 Hr0) as [->|[_ ->]];
      [|exists r; split; [done|constructor]].
    unfold after_finalize, finalize_on.
    destruct (decide (rid0 = rid)) as [->|Hne].
    + simplify_eq. exists (finalize_on r).
      split; [|by constructor]. unfold finalize_on.
      destruct (should_finalize _); simpl; by rewrite lookup_insert_eq.
    + exists r. split; [|constructor].
      destruct (should_finalize _); simpl; by rewrite lookup_insert_ne.
  - apply bool_decide_eq_true in Hen. apply occurrences_elem in Hen.
    unfold run_judgement, bind, get_race.
    destruct (RACE_STATES s !! rid0) as [r0|] eqn:Hr0.
    2:{ exists r; split; [done|constructor]. }
    simpl. destruct (decide (rid0 = rid)) as [->|Hne].
    + simplify_eq. rewrite lookup_insert_eq. eexists; split; [done|].
      constructor. destruct (Hraces _ _ Hr) as [[Ip _ _ _ _ _ _ _ _ _ _] _].
      destruct (finalizing r); [done | lia].
    + rewrite lookup_insert_ne by done. exists r; split; [done|constructor].
Qed.

(** Along any execution a registered race stays registered, and its later
    state is a later state in the sense of [race_later]. *)
Lemma exec_ops_race_later ops s s' rid r :
  sys_ok s → exec_ops ops s = Some s' → RACE_STATES s !! rid = Some r →
  ∃ r', RACE_STATES s' !! rid = Some r' ∧ race_later r r'.
Proof.
  revert s r. induction ops as [|op ops IH]; simpl; intros s r Hok Hrun Hr.
  - simplify_eq. exists r. split; [done | apply race_later_refl].
  - destruct (op_enabled op s) eqn:Hen; [|done].
    destruct (exec_op_race_step op s rid r Hok Hen Hr) as (r1 & Hr1 & Hstep).
    destruct (IH _ r1 (exec_op_ok op s Hok Hen) Hrun Hr1) as (r' & Hr' & Hl).
    exists r'. split; [done|].
    eapply race_later_trans; [|done].
    destruct Hok as (Hraces & _). eapply race_step_later; [|done].
    by apply Hraces.
Qed.

Lemma occurrences_pos_elem x l : (0 < occurrences x l)%nat → x ∈ l.
Proof.
  induction l as [|y l IH]; simpl; [lia|].
  destruct (String.eqb_spec x y) as [->|Hne].
  - intros _. left.
  - intros H. right. apply IH. lia.
Qed.

Lemma record_human_submission_result s rid r sub now1 now2 :
  RACE_STATES s !! rid = Some r →
  record_human_submission rid sub now1 now2 s
  = (Return (finalize_on (submit_on sub now1 now2 r)),
     after_finalize s rid (submit_on sub now1 now2 r) (RUN_TO_RACE s)).
Proof.
  intros Hr. unfold record_human_submission.
  unfold bind at 1. unfold get_race at 1. rewrite Hr.
  unfold bind at 1. unfold store_race at 1.
  unfold bind at 1. rewrite maybe_finalize_stored.
  unfold after_finalize, get_race, finalize_on.
  destruct (should_finalize _); simpl; rewrite lookup_insert_eq; done.
Qed.

(** ** A race whose agent run ended without being ready *)

Lemma should_finalize_not_ready r :
  agent_ready r = false → should_finalize r = false.
Proof.
  unfold should_finalize. intros ->. by destruct (verdict r), (finalizing r).
Qed.

Lemma agent_ready_frame r r' : agent r' = agent r → agent_ready r' = agent_ready r.
Proof. unfold agent_ready. by intros ->. Qed.

(** No step of the process brings such a race back: its run is gone
    from the index, no second run can be registered, and every other
    handler leaves the agent as it is. *)
Lemma agent_gone_step op s rid :
  sys_ok s → op_enabled op s = true → agent_gone rid s →
  agent_gone rid (exec_op op s).
Proof.
  intros Hok Hen [(r & Hr & Hready & Hbound & Hv & Hf) Hidx].
  pose proof Hok as (Hraces & Hroute & Hfresh).
  destruct op as [rid0 t now|rid0 run now|run e now|rid0 sub now1 now2|rid0 now
                 |rid0|rid0 o]; simpl in *.
  - apply andb_prop in Hen as [_ Hnew]. apply bool_decide_eq_true in Hnew.
    split; [|done]. exists r. simpl. rewrite lookup_insert_ne; [done | congruence].
  - unfold register_agent_run, bind, get_race.
    destruct (RACE_STATES s !! rid0) as [r0|] eqn:Hr0; [|by split; [exists r|]].
    destruct (agent_run_id r0) eqn:Hrun; [by split; [exists r|]|]. simpl.
    assert (Hne : rid0 ≠ rid) by (intros ->; congruence).
    split.
    + exists r. simpl. by rewrite lookup_insert_ne.
    + intros run'. simpl. destruct (decide (run = run')) as [->|Hrn].
      * rewrite lookup_insert_eq. congruence.
      * rewrite lookup_insert_ne by done. apply Hidx.
  - destruct (RUN_TO_RACE s !! run) as [rid0|] eqn:Hrun;
      [|unfold handle_run_event; rewrite Hrun; by split; [exists r|]].
    destruct (truthy_str rid0) eqn:Hrid;
      [|unfold handle_run_event; rewrite Hrun, Hrid; by split; [exists r|]].
    destruct (Hroute _ _ Hrun) as (r0 & Hr0 & Hb).
    rewrite (handle_run_event_bound s run e now rid0 r0) by done. simpl.
    assert (Hne : rid0 ≠ rid) by (intros ->; by apply (Hidx run)).
    unfold after_finalize. split.
    + exists r. destruct (should_finalize _); simpl; by rewrite lookup_insert_ne.
    + intros run'.
      assert (Hm : (if is_str (ev_type e) "complete"
                    then delete run (RUN_TO_RACE s) else RUN_TO_RACE s) !! run'
                   ≠ Some rid).
      { destruct (is_str (ev_type e) "complete"); [|apply Hidx].
        intros [_ Hx]%lookup_delete_Some. by apply (Hidx run'). }
      by destruct (should_finalize _).
  - destruct (RACE_STATES s !! rid0) as [r0|] eqn:Hr0;
      [|unfold record_human_submission, bind, get_race; rewrite Hr0;
        by split; [exists r|]].
    rewrite (record_human_submission_known s rid0 r0) by done.
    unfold after_finalize.
    destruct (decide (rid0 = rid)) as [->|Hne].
    + simplify_eq.
      destruct (submit_on_frame sub now1 now2 r)
        as (_ & _ & _ & _ & Hb' & Ha' & Hv' & Hf').
      assert (Hready' : agent_ready (submit_on sub now1 now2 r) = false)
        by (by rewrite (agent_ready_frame _ _ Ha')).
      rewrite (should_finalize_not_ready _ Hready'). split; [|done].
      eexists. simpl. rewrite lookup_insert_eq. split; [done|].
      by rewrite Hb', Hv', Hf'.
    + split.
      * exists r. destruct (should_finalize _); simpl; by rewrite lookup_insert_ne.
      * by destruct (should_finalize _).
  - unfold mark_human_started, bind, get_race.
    destruct (RACE_STATES s !! rid0) as [r0|] eqn:Hr0; [|by split; [exists r|]].
    simpl. split; [|done].
    destruct (decide (rid0 = rid)) as [->|Hne].
    + simplify_eq. eexists. simpl. rewrite lookup_insert_eq. split; [done|].
      destruct (start_human_on_frame now r)
        as (_ & _ & _ & Hb' & Ha' & _ & Hv' & Hf').
      by rewrite (agent_ready_frame _ _ Ha'), Hb', Hv', Hf'.
    + exists r. simpl. by rewrite lookup_insert_ne.
  - destruct (RACE_STATES s !! rid0) as [r0|] eqn:Hr0;
      [|unfold maybe_finalize, bind, get_race; rewrite Hr0;
        by split; [exists r|]].
    destruct (maybe_finalize_known s rid0 r0 Hr0) as [->|[_ ->]];
      [|by split; [exists r|]].
    unfold after_finalize.
    destruct (decide (rid0 = rid)) as [->|Hne].
    + simplify_eq. rewrite (should_finalize_not_ready r Hready). split; [|done].
      exists r. simpl. by rewrite lookup_insert_eq.
    + split.
      * exists r. destruct (should_finalize _); simpl; by rewrite lookup_insert_ne.
      * by destruct (should_finalize _).
  - apply bool_decide_eq_true in Hen. apply occurrences_elem in Hen.
    unfold run_judgement, bind, get_race.
    destruct (RACE_STATES s !! rid0) as [r0|] eqn:Hr0; [|by split; [exists r|]].
    simpl. split; [|done].
    destruct (decide (rid0 = rid)) as [->|Hne].
    + simplify_eq. destruct (Hraces _ _ Hr) as [[Ip _ _ _ _ _ _ _ _ _ _] _].
      rewrite Hf in Ip. lia.
    + exists r. simpl. by rewrite lookup_insert_ne.
Qed.

Lemma agent_gone_steps ops s s' rid :
  sys_ok s → agent_gone rid s → exec_ops ops s = Some s' →
  sys_ok s' ∧ agent_gone rid s'.
Proof.
  revert s. induction ops as [|op ops IH]; simpl; intros s Hok Hgone Hrun.
  - by simplify_eq.
  - destruct (op_enabled op s) eqn:Hen; [|done].
    eapply IH; [| |done]; [by apply exec_op_ok | by apply agent_gone_step].
Qed.

(** Such a race has no judge call, no verdict, and is neither judging
    nor completed. *)
Lemma agent_gone_not_judged s rid :
  sys_ok s → agent_gone rid s →
  ∃ r, RACE_STATES s !! rid = Some r
       ∧ verdict r = None ∧ status r ≠ judging ∧ status r ≠ completed
       ∧ occurrences rid (judge_calls s) = 0%nat
       ∧ occurrences rid (verdict_writes s) = 0%nat.
Proof.
  intros (Hraces & _) [(r & Hr & _ & _ & Hv & Hf) _].
  destruct (Hraces _ _ Hr) as [[Ip Iw Ic _ Ij Icm _ _ _ _ _] _].
  exists r. rewrite Ic, Ip, Iw, Hv, Hf.
  split; [done|]. split; [done|].
  split; [intros ?%Ij; congruence|]. split; [intros ?%Icm; congruence|]. done.
Qed.


Lemma agent_gone_intro s rid run :
  agent_ready <$> RACE_STATES s !! rid = Some false →
  agent_run_id <$> RACE_STATES s !! rid = Some (Some run) →
  verdict <$> RACE_STATES s !! rid = Some None →
  finalizing <$> RACE_STATES s !! rid = Some false →
  RUN_TO_RACE s = ∅ →
  agent_gone rid s.
Proof.
  unfold agent_gone.
  destruct (RACE_STATES s !! rid) as [r|]; simpl; [|done].
  intros [= Ha] [= Hb] [= Hv] [= Hf] Hidx. split.
  - exists r. split; [done|]. split; [done|]. split; [by rewrite Hb|]. done.
  - intros run'. rewrite Hidx. by rewrite lookup_empty.
Qed.

(** * The claims *)

(** C1, as the code behaves: the judgement is not triggered exactly once
    in every interleaving.  When the executor fails ([error], then
    [complete] from its [finally]) and the human submits after that, both
    sides have finished, but the [complete] has replaced the agent status
    ["error"], so the agent is not ready by the test of [_maybe_finalize]:
    no judge call is made, then or in any continuation of the schedule,
    and the race never reaches judging or completed and gets no verdict.
    The same three calls in the other two orders start exactly one
    judgement.  The guard itself is not at fault: that no second judge
    call ever starts is proved separately. *)
Theorem judgement_missed_after_error_and_complete :
  exec_ops error_complete_submission init_system
  = Some (state_after error_complete_submission)
  ∧ (p_status ∘ agent)
      <$> (RACE_STATES (state_after error_complete_submission) !! "race1")
    = Some "completed"
  ∧ agent_ready
      <$> (RACE_STATES (state_after error_complete_submission) !! "race1")
    = Some false
  ∧ human_ready
      <$> (RACE_STATES (state_after error_complete_submission) !! "race1")
    = Some true
  ∧ status
      <$> (RACE_STATES (state_after error_complete_submission) !! "race1")
    = Some awaiting_human
  ∧ judge_calls (state_after error_complete_submission) = []
  ∧ (∀ ops s',
       exec_ops ops (state_after error_complete_submission) = Some s' →
       ∃ r', RACE_STATES s' !! "race1" = Some r'
             ∧ verdict r' = None ∧ status r' ≠ judging ∧ status r' ≠ completed
             ∧ occurrences "race1" (judge_calls s') = 0%nat
             ∧ occurrences "race1" (verdict_writes s') = 0%nat)
  ∧ judge_calls (state_after submission_error_complete) = ["race1"]
  ∧ judge_calls (state_after error_submission_complete) = ["race1"].
Proof.
  assert (Hrun : exec_ops error_complete_submission init_system
                 = Some (state_after error_complete_submission))
    by (vm_compute; reflexivity).
  split; [exact Hrun|].
  split; [vm_compute; reflexivity|]. split; [vm_compute; reflexivity|].
  split; [vm_compute; reflexivity|]. split; [vm_compute; reflexivity|].
  split; [vm_compute; reflexivity|].
  split; [|split; vm_compute; reflexivity].
  intros ops s' Hops.
  assert (Hok : sys_ok (state_after error_complete_submission))
    by (eapply exec_ops_ok; [apply sys_ok_init | exact Hrun]).
  assert (Hgone : agent_gone "race1" (state_after error_complete_submission))
    by (apply (agent_gone_intro _ _ "run1"); vm_compute; reflexivity).
  destruct (agent_gone_steps ops _ s' "race1" Hok Hgone Hops) as [Hok' Hgone'].
  exact (agent_gone_not_judged _ _ Hok' Hgone').
Qed.

(** C2: along every sequence of operations the status of a race only
    moves forward in the order ready, running, awaiting_human, judging,
    completed; and once a verdict is set the status is completed and stays
    completed, with the same verdict. *)
Theorem status_never_regresses ops1 ops2 s1 s2 rid r1 :
  exec_ops ops1 init_system = Some s1 →
  exec_ops ops2 s1 = Some s2 →
  RACE_STATES s1 !! rid = Some r1 →
  ∃ r2, RACE_STATES s2 !! rid = Some r2
    ∧ (status_rank (status r1) ≤ status_rank (status r2))%nat
    ∧ (is_Some (verdict r1) →
       status r1 = completed ∧ status r2 = completed
       ∧ verdict r2 = verdict r1).
Proof.
  intros Hrun1 Hrun2 Hr1.
  assert (Hok1 : sys_ok s1) by (eapply exec_ops_ok; [apply sys_ok_init | done]).
  assert (Hok2 : sys_ok s2) by (eapply exec_ops_ok; done).
  destruct (exec_ops_race_later ops2 s1 s2 rid r1 Hok1 Hrun2 Hr1)
    as (r2 & Hr2 & Hlater).
  exists r2. split; [done|]. split; [apply Hlater|].
  intros [v Hv]. pose proof (later_verdict _ _ Hlater v Hv) as Hv2.
  destruct Hok1 as (Hraces1 & _). destruct Hok2 as (Hraces2 & _).
  destruct (Hraces1 rid r1 Hr1) as [[_ _ _ _ _ Hc1 _ _ _ _ _] _].
  destruct (Hraces2 rid r2 Hr2) as [[_ _ _ _ _ Hc2 _ _ _ _ _] _].
  split; [|split].
  - apply Hc1. by rewrite Hv.
  - apply Hc2. by rewrite Hv2.
  - by rewrite Hv, Hv2.
Qed.

Lemma status_never_regresses_witness :
  exec_ops race_judge_fails init_system = Some (state_after race_judge_fails)
  ∧ exec_ops late_calls (state_after race_judge_fails)
    = Some (state_after (race_judge_fails ++ late_calls))
  ∧ ∃ r1 r2,
      RACE_STATES (state_after race_judge_fails) !! "race1" = Some r1
      ∧ RACE_STATES (state_after (race_judge_fails ++ late_calls)) !! "race1"
        = Some r2
      ∧ (status_rank (status r1) ≤ status_rank (status r2))%nat
      ∧ (is_Some (verdict r1) →
         status r1 = completed ∧ status r2 = completed
         ∧ verdict r2 = verdict r1).
Proof.
  split; [vm_compute; reflexivity|]. split; [vm_compute; reflexivity|].
  assert (is_Some (RACE_STATES (state_after race_judge_fails) !! "race1"))
    as [r1 Hr1] by (vm_compute; eauto).
  destruct (status_never_regresses race_judge_fails late_calls
              (state_after race_judge_fails)
              (state_after (race_judge_fails ++ late_calls)) "race1" r1)
    as (r2 & Hr2 & Hrank & Hv);
    [vm_compute; reflexivity | vm_compute; reflexivity | exact Hr1 |].
  exists r1, r2. split; [exact Hr1|]. split; [exact Hr2|].
  split; [exact Hrank | exact Hv].
Defined.

(** C4: in every reachable state, for the agent and for the human of
    every race, the duration is set exactly when both timestamps are set,
    and is then completed-at minus started-at; and a completed-at that is
    set is still the same after any further operations. *)
Theorem duration_iff_both_timestamps ops1 ops2 s1 s2 rid r1 :
  exec_ops ops1 init_system = Some s1 →
  exec_ops ops2 s1 = Some s2 →
  RACE_STATES s1 !! rid = Some r1 →
  (∀ p, p = agent r1 ∨ p = human r1 →
     (is_Some (duration_seconds p)
      ↔ is_Some (started_at p) ∧ is_Some (completed_at p))
     ∧ (∀ d, duration_seconds p = Some d →
          ∃ t0 t1, started_at p = Some t0 ∧ completed_at p = Some t1
                   ∧ d = t1 - t0))
  ∧ ∃ r2, RACE_STATES s2 !! rid = Some r2
      ∧ (∀ t, completed_at (agent r1) = Some t →
              completed_at (agent r2) = Some t)
      ∧ (∀ t, completed_at (human r1) = Some t →
              completed_at (human r2) = Some t).
Proof.
  intros Hrun1 Hrun2 Hr1.
  assert (Hok1 : sys_ok s1) by (eapply exec_ops_ok; [apply sys_ok_init | done]).
  split.
  - destruct Hok1 as (Hraces1 & _).
    destruct (Hraces1 rid r1 Hr1) as [[_ _ _ _ _ _ _ Ha _ Hh _] _].
    assert (Hp : ∀ p, participant_ok p →
      (is_Some (duration_seconds p)
       ↔ is_Some (started_at p) ∧ is_Some (completed_at p))
      ∧ (∀ d, duration_seconds p = Some d →
           ∃ t0 t1, started_at p = Some t0 ∧ completed_at p = Some t1
                    ∧ d = t1 - t0)).
    { intros p [_ _ _ Hd]. rewrite Hd. unfold elapsed.
      destruct (completed_at p) as [c|], (started_at p) as [t0|]; split.
      all: try (split; [intros [? ?]; simplify_eq; eauto
                       | intros [[? ?] [? ?]]; simplify_eq; eauto]).
      all: intros d ?; simplify_eq; eauto. }
    intros p [-> | ->]; by apply Hp.
  - destruct (exec_ops_race_later ops2 s1 s2 rid r1 Hok1 Hrun2 Hr1)
      as (r2 & Hr2 & Hlater).
    exists r2. split; [done|]. split; apply Hlater.
Qed.

Lemma duration_iff_both_timestamps_witness :
  exec_ops race_judge_fails init_system = Some (state_after race_judge_fails)
  ∧ exec_ops late_calls (state_after race_judge_fails)
    = Some (state_after (race_judge_fails ++ late_calls))
  ∧ ∃ r1,
      RACE_STATES (state_after race_judge_fails) !! "race1" = Some r1
      ∧ (is_Some (duration_seconds (agent r1))
         ↔ is_Some (started_at (agent r1)) ∧ is_Some (completed_at (agent r1)))
      ∧ ∃ r2,
          RACE_STATES (state_after (race_judge_fails ++ late_calls)) !! "race1"
          = Some r2
          ∧ (∀ t, completed_at (human r1) = Some t →
                  completed_at (human r2) = Some t).
Proof.
  split; [vm_compute; reflexivity|]. split; [vm_compute; reflexivity|].
  assert (is_Some (RACE_STATES (state_after race_judge_fails) !! "race1"))
    as [r1 Hr1] by (vm_compute; eauto).
  destruct (duration_iff_both_timestamps race_judge_fails late_calls
              (state_after race_judge_fails)
              (state_after (race_judge_fails ++ late_calls)) "race1" r1)
    as (Hd & r2 & Hr2 & _ & Hh);
    [vm_compute; reflexivity | vm_compute; reflexivity | exact Hr1 |].
  exists r1. split; [exact Hr1|].
  split; [exact (proj1 (Hd (agent r1) (or_introl eq_refl)))|].
  exists r2. split; [exact Hr2 | exact Hh].
Defined.

(** C5: a race whose judgement is in flight can always have it finish;
    when the judge call raises, the race becomes completed with the
    verdict [tie], both scores [0.0] and the reasoning
    ["Judging failed: "] followed by the text of the failure; and whether
    the call raises or returns, the finalizing flag is cleared. *)
Theorem judge_failure_gives_tie ops s rid r :
  exec_ops ops init_system = Some s →
  RACE_STATES s !! rid = Some r →
  finalizing r = true →
  (∀ txt,
     op_enabled (OpJudgementDone rid (JudgeRaised txt)) s = true
     ∧ ∃ r', RACE_STATES (exec_op (OpJudgementDone rid (JudgeRaised txt)) s)
               !! rid = Some r'
         ∧ status r' = completed
         ∧ verdict r'
           = Some (mkVerdict "tie" (JStr ("Judging failed: " +:+ txt))
                             float_zero float_zero)
         ∧ finalizing r' = false)
  ∧ (∀ v,
       op_enabled (OpJudgementDone rid (JudgeReturned v)) s = true
       ∧ ∃ r', RACE_STATES (exec_op (OpJudgementDone rid (JudgeReturned v)) s)
                 !! rid = Some r'
           ∧ status r' = completed ∧ verdict r' = Some v
           ∧ finalizing r' = false).
Proof.
  intros Hrun Hr Hfin.
  assert (Hok : sys_ok s) by (eapply exec_ops_ok; [apply sys_ok_init | done]).
  destruct Hok as (Hraces & _).
  destruct (Hraces rid r Hr) as [[Ip _ _ _ _ _ _ _ _ _ _] _].
  rewrite Hfin in Ip.
  assert (Hin : rid ∈ pending_judgements s)
    by (apply occurrences_pos_elem; lia).
  split; intros x; (split; [by apply bool_decide_eq_true|]); simpl.
  all: unfold run_judgement, bind, get_race; rewrite Hr; simpl.
  all: rewrite lookup_insert_eq; eexists; split; [done|]; done.
Qed.

Lemma judge_failure_gives_tie_witness :
  exec_ops race_to_judging init_system = Some (state_after race_to_judging)
  ∧ ∃ r r',
      RACE_STATES (state_after race_to_judging) !! "race1" = Some r
      ∧ finalizing r = true
      ∧ RACE_STATES
          (exec_op (OpJudgementDone "race1" (JudgeRaised "timeout"))
                   (state_after race_to_judging)) !! "race1" = Some r'
      ∧ status r' = completed
      ∧ verdict r'
        = Some (mkVerdict "tie" (JStr "Judging failed: timeout")
                          float_zero float_zero)
      ∧ finalizing r' = false.
Proof.
  split; [vm_compute; reflexivity|].
  assert (∃ r, RACE_STATES (state_after race_to_judging) !! "race1" = Some r
               ∧ finalizing r = true)
    as (r & Hr & Hfin) by (vm_compute; eauto).
  destruct (judge_failure_gives_tie race_to_judging
              (state_after race_to_judging) "race1" r) as (Hfail & _);
    [vm_compute; reflexivity | exact Hr | exact Hfin |].
  destruct (Hfail "timeout") as (_ & r' & Hr' & Hst & Hv & Hf).
  exists r, r'. repeat split; assumption.
Defined.

(** C6: on a race that has a run bound, registering any run raises the
    conflict error and changes nothing at all: the race object (its bound
    run, status and participants), the registry and the run-to-race index
    are as before. *)
Theorem second_registration_conflicts s rid r bound run now :
  RACE_STATES s !! rid = Some r →
  agent_run_id r = Some bound →
  register_agent_run rid run now s
  = (Raise (RuntimeError ("Agent run already registered for race " +:+ rid)),
     s).
Proof.
  intros Hr Hbound. unfold register_agent_run, bind, get_race.
  by rewrite Hr, Hbound.
Qed.

Lemma second_registration_conflicts_witness :
  (∃ r, RACE_STATES (state_after human_first) !! "race1" = Some r
        ∧ agent_run_id r = Some "run1")
  ∧ register_agent_run "race1" "run2" 200 (state_after human_first)
    = (Raise (RuntimeError "Agent run already registered for race race1"),
       state_after human_first).
Proof.
  assert (∃ r, RACE_STATES (state_after human_first) !! "race1" = Some r
               ∧ agent_run_id r = Some "run1")
    as (r & Hr & Hb) by (vm_compute; eauto).
  split; [exists r; split; assumption|].
  exact (second_registration_conflicts (state_after human_first) "race1" r
           "run1" "run2" 200 Hr Hb).
Defined.

(** C7: an event for a run that is not in the run-to-race index is
    dropped: [handle_run_event] returns normally and the whole process
    state (every race, the registry, the index) is unchanged. *)
Theorem unknown_run_event_is_dropped s run e now :
  RUN_TO_RACE s !! run = None →
  handle_run_event run e now s = (Return tt, s).
Proof. intros Hrun. unfold handle_run_event. by rewrite Hrun. Qed.

Lemma unknown_run_event_is_dropped_witness :
  RUN_TO_RACE (state_after race_to_judging) !! "run1" = None
  ∧ handle_run_event "run1" (result_event "Rome") 200
      (state_after race_to_judging)
    = (Return tt, state_after race_to_judging).
Proof.
  split; [vm_compute; reflexivity|].
  apply (unknown_run_event_is_dropped (state_after race_to_judging) "run1").
  vm_compute; reflexivity.
Defined.


(** A second submission on a race at rest whose human is completed: the
    race object afterwards. *)
Lemma resubmit_on np nw nc r sub now1 now2 :
  race_inv np nw nc r → p_status (human r) = "completed" →
  0 < now1 → 0 < now2 →
  let r' := submit_on sub now1 now2 r in
  should_finalize r' = false
  ∧ human_submission r' = Some (str_or_empty sub)
  ∧ result (human r')
    = (if String.eqb (task_type (task r)) "text_entry"
       then Some (str_or_empty sub) else result (human r))
  ∧ p_status (human r') = p_status (human r)
  ∧ started_at (human r') = started_at (human r)
  ∧ completed_at (human r') = completed_at (human r)
  ∧ duration_seconds (human r') = duration_seconds (human r)
  ∧ live_url (human r') = live_url (human r)
  ∧ status r' = status r ∧ verdict r' = verdict r
  ∧ finalizing r' = finalizing r ∧ agent r' = agent r
  ∧ agent_run_id r' = agent_run_id r ∧ task r' = task r.
Proof.
  intros [[Ip Iw Ic Ie Ij Icm Inr Ia Ias Ih Ihs] Hs] Hdone Hn1 Hn2.
  destruct r as [rid t ca st ar ag hu hsub v fin]; simpl in *.
  destruct hu as [hs hst hco hd hr hl]; simpl in *. subst hs.
  destruct Ih as [Hhst Hhco Hhcs Hhd]; simpl in *.
  unfold elapsed in Hhd; simpl in Hhd.
  unfold human_ok in Ihs; simpl in Ihs.
  destruct Ihs as [(? & _)|[(? & _)|(_ & Hco & Hsub)]]; [done..|].
  destruct hco as [c|]; [|done]. pose proof (Hhco c eq_refl) as Hc.
  destruct hst as [t0|]; [|by destruct Hhcs]. pose proof (Hhst t0 eq_refl) as Ht0.
  destruct hsub as [old|]; [|done]. subst hd.
  unfold submit_on; simpl.
  rewrite (truthy_ts_pos t0 Ht0), (ts_or_pos c now2 Hc); simpl.
  assert (Hag : v = None → fin = false → agent_ready
            (mkRaceState rid t ca st ar ag
               (mkParticipantState "completed" (Some t0) (Some c)
                  (Some (c - t0)) hr hl) (Some old) v fin) = false).
  { intros -> ->. unfold should_finalize, human_ready in Hs; simpl in Hs.
    destruct (String.eqb (task_type t) "text_entry"); simpl in Hs.
    all: by rewrite andb_true_r in Hs. }
  unfold agent_ready in Hag; simpl in Hag.
  destruct (String.eqb (task_type t) "text_entry"); simpl.
  all: split; [|repeat split; done].
  all: unfold should_finalize; simpl.
  all: destruct v; [done|]; destruct fin; [done|].
  all: unfold agent_ready; simpl; by rewrite Hag.
Qed.

(** C10: on a reachable race whose human is already completed, a further
    submission returns normally, stores the new text as the human
    submission (and, for a text_entry task, as the human result), leaves
    the human status, both timestamps and the duration, the race status,
    the verdict, the flag and the agent as they were, and starts no
    judgement: the judge calls and the pending judgement tasks are the
    same. *)
Theorem resubmission_changes_text_only ops s rid r sub now1 now2 :
  exec_ops ops init_system = Some s →
  RACE_STATES s !! rid = Some r →
  p_status (human r) = "completed" →
  0 < now1 → 0 < now2 →
  ∃ r',
    record_human_submission rid sub now1 now2 s
    = (Return r',
       mkSystem (<[rid := r']> (RACE_STATES s)) (RUN_TO_RACE s)
                (pending_judgements s) (judge_calls s) (verdict_writes s))
    ∧ human_submission r' = Some (str_or_empty sub)
    ∧ result (human r')
      = (if String.eqb (task_type (task r)) "text_entry"
         then Some (str_or_empty sub) else result (human r))
    ∧ p_status (human r') = p_status (human r)
    ∧ started_at (human r') = started_at (human r)
    ∧ completed_at (human r') = completed_at (human r)
    ∧ duration_seconds (human r') = duration_seconds (human r)
    ∧ status r' = status r ∧ verdict r' = verdict r
    ∧ finalizing r' = finalizing r ∧ agent r' = agent r.
Proof.
  intros Hrun Hr Hdone Hn1 Hn2.
  assert (Hok : sys_ok s) by (eapply exec_ops_ok; [apply sys_ok_init | done]).
  destruct Hok as (Hraces & _).
  destruct (resubmit_on _ _ _ r sub now1 now2 (Hraces rid r Hr) Hdone Hn1 Hn2)
    as (Hs & H1 & H2 & H3 & H4 & H5 & H6 & _ & H7 & H8 & H9 & H10 & _).
  exists (submit_on sub now1 now2 r).
  rewrite (record_human_submission_result s rid r) by done.
  unfold after_finalize, finalize_on. rewrite Hs.
  repeat split; done.
Qed.

Lemma resubmission_changes_text_only_witness :
  exec_ops race_judge_fails init_system = Some (state_after race_judge_fails)
  ∧ ∃ r r',
      RACE_STATES (state_after race_judge_fails) !! "race1" = Some r
      ∧ p_status (human r) = "completed"
      ∧ record_human_submission "race1" (Some "Lyon") 150 151
          (state_after race_judge_fails)
        = (Return r',
           mkSystem (<["race1" := r']> (RACE_STATES (state_after race_judge_fails)))
                    (RUN_TO_RACE (state_after race_judge_fails))
                    (pending_judgements (state_after race_judge_fails))
                    (judge_calls (state_after race_judge_fails))
                    (verdict_writes (state_after race_judge_fails)))
      ∧ human_submission r' = Some "Lyon"
      ∧ completed_at (human r') = completed_at (human r)
      ∧ status r' = status r ∧ verdict r' = verdict r.
Proof.
  split; [vm_compute; reflexivity|].
  assert (∃ r, RACE_STATES (state_after race_judge_fails) !! "race1" = Some r
               ∧ p_status (human r) = "completed")
    as (r & Hr & Hdone) by (vm_compute; eauto).
  destruct (resubmission_changes_text_only race_judge_fails
              (state_after race_judge_fails) "race1" r (Some "Lyon") 150 151)
    as (r' & Hcall & Hsub & _ & _ & _ & Hco & _ & Hst & Hv & _);
    [vm_compute; reflexivity | exact Hr | exact Hdone | lia | lia |].
  exists r, r'.
  split; [exact Hr|]. split; [exact Hdone|]. split; [exact Hcall|].
  split; [exact Hsub|]. split; [exact Hco|]. split; [exact Hst | exact Hv].
Defined.

(** What a [complete] event does to the race object, whatever the agent
    status was: the status becomes ["completed"], a completed-at that is
    unset is set to the clock reading, and the race moves to
    awaiting_human exactly when it is neither judging nor completed and
    the human has not completed. *)
Lemma on_complete_effect now r :
  let r' := on_complete now r in
  p_status (agent r') = "completed"
  ∧ completed_at (agent r') = Some (ts_or (completed_at (agent r)) now)
  ∧ started_at (agent r') = started_at (agent r)
  ∧ result (agent r') = result (agent r)
  ∧ status r'
    = match status r with
      | judging => judging
      | completed => completed
      | st =>
          if String.eqb (p_status (human r)) "completed" then st
          else awaiting_human
      end.
Proof.
  destruct r as [rid t ca st ar ag hu hsub v fin].
  destruct ag as [gs gst gco gd gr gl].
  unfold on_complete; simpl.
  destruct (truthy_ts gst), gd, st; simpl;
    destruct (String.eqb (p_status hu) "completed"); done.
Qed.

(** The [complete] event detaches the run. *)
Lemma complete_detaches_run s run rid r now :
  RUN_TO_RACE s !! run = Some rid → truthy_str rid = true →
  RACE_STATES s !! rid = Some r →
  RUN_TO_RACE (snd (handle_run_event run complete_event now s)) !! run = None.
Proof.
  intros Hrun Hrid Hr.
  rewrite (handle_run_event_bound s run complete_event now rid r) by done.
  simpl. unfold after_finalize.
  destruct (should_finalize _); simpl; apply lookup_delete_eq.
Qed.

(** C3, as the code behaves: after the executor's own failure sequence
    ([error], then [complete] from its [finally]) the agent status is
    ["completed"], not ["error"]; the agent is then no longer ready, and a
    human submission that follows starts no judgement. *)
Theorem complete_overwrites_error :
  (p_status ∘ agent) <$> (RACE_STATES (state_after (removelast agent_fails))
                            !! "race1")
  = Some "error"
  ∧ (p_status ∘ agent) <$> (RACE_STATES (state_after agent_fails) !! "race1")
    = Some "completed"
  ∧ agent_ready <$> (RACE_STATES (state_after agent_fails) !! "race1")
    = Some false
  ∧ judge_calls
      (state_after
         (agent_fails ++ [OpHumanSubmission "race1" (Some "Paris") 130 131]))
    = [].
Proof. vm_compute. done. Qed.

(** ** The judge's reply *)

Lemma no_missing_keys (verdict : gmap string json) w why a h :
  verdict !! "winner" = Some w → verdict !! "reasoning" = Some why →
  verdict !! "agent_score" = Some a → verdict !! "human_score" = Some h →
  filter (λ k, verdict !! k = None) required_keys = [].
Proof.
  intros Hw Hy Ha Hh. unfold required_keys.
  repeat (rewrite filter_cons_False by congruence). done.
Qed.

(** C9: for a reply that has the four keys, the call returns a verdict
    exactly when both scores convert to a float; the winner of that
    verdict is the lower-cased value when it is agent, human or tie and is
    tie otherwise, so an unrecognised winner never makes the call fail;
    and a score that does not convert makes the call raise. *)
Theorem judge_race_coerces_winner_rejects_scores
    float_of_str float_of_int py_repr (verdict : gmap string json) w why a h :
  verdict !! "winner" = Some w → verdict !! "reasoning" = Some why →
  verdict !! "agent_score" = Some a → verdict !! "human_score" = Some h →
  (∀ fa fh,
     py_float float_of_str float_of_int a = FloatOk fa →
     py_float float_of_str float_of_int h = FloatOk fh →
     judge_race float_of_str float_of_int py_repr verdict
     = Return (mkVerdict
                 (if known_winner (lower (py_str py_repr w))
                  then lower (py_str py_repr w) else "tie")
                 why fa fh))
  ∧ ((∀ f, py_float float_of_str float_of_int a ≠ FloatOk f)
     ∨ (∀ f, py_float float_of_str float_of_int h ≠ FloatOk f) →
     ∃ e, judge_race float_of_str float_of_int py_repr verdict = Raise e)
  ∧ (py_float float_of_str float_of_int a = FloatTypeError
     ∨ py_float float_of_str float_of_int a = FloatValueError →
     judge_race float_of_str float_of_int py_repr verdict
     = Raise (RuntimeError ("Judge response agent_score is not numeric: "
                            +:+ py_repr a))).
Proof.
  intros Hw Hy Ha Hh. unfold judge_race.
  rewrite (no_missing_keys verdict w why a h) by done.
  rewrite Hw, Hy, Ha, Hh. unfold convert_score.
  split; [|split].
  - intros fa fh -> ->. done.
  - intros [Hbad|Hbad].
    + destruct (py_float float_of_str float_of_int a) eqn:Hfa; eauto.
      by destruct (Hbad f).
    + destruct (py_float float_of_str float_of_int a) eqn:Hfa; eauto.
      destruct (py_float float_of_str float_of_int h) eqn:Hfh; eauto.
      by destruct (Hbad f0).
  - intros [-> | ->]; done.
Qed.

Lemma judge_race_coerces_winner_rejects_scores_witness :
  sample_reply !! "winner" = Some (JStr "Robot")
  ∧ sample_reply !! "reasoning" = Some (JStr "close")
  ∧ sample_reply !! "agent_score" = Some (JInt 6)
  ∧ sample_reply !! "human_score" = Some (JStr "7.5")
  ∧ judge_race sample_float_of_str sample_float_of_int sample_repr sample_reply
    = Return (mkVerdict "tie" (JStr "close") (FFinite 6 0) (FFinite 15 (-1))).
Proof.
  assert (Hw : sample_reply !! "winner" = Some (JStr "Robot"))
    by (vm_compute; reflexivity).
  assert (Hy : sample_reply !! "reasoning" = Some (JStr "close"))
    by (vm_compute; reflexivity).
  assert (Ha : sample_reply !! "agent_score" = Some (JInt 6))
    by (vm_compute; reflexivity).
  assert (Hh : sample_reply !! "human_score" = Some (JStr "7.5"))
    by (vm_compute; reflexivity).
  split; [exact Hw|]. split; [exact Hy|]. split; [exact Ha|].
  split; [exact Hh|].
  exact (proj1 (judge_race_coerces_winner_rejects_scores
                  sample_float_of_str sample_float_of_int sample_repr
                  sample_reply _ _ _ _ Hw Hy Ha Hh)
               (FFinite 6 0) (FFinite 15 (-1)) eq_refl eq_refl).
Defined.

(** ** The event stream *)

Local Open Scope list_scope.

Lemma run_exec_ops_snoc ops op st :
  run_exec_ops (ops ++ [op]) st = run_exec_op op (run_exec_ops ops st).
Proof. unfold run_exec_ops. by rewrite fold_left_app. Qed.

Lemma unsubscribes_snoc l ops op :
  unsubscribes l (ops ++ [op]) = unsubscribes l ops || is_unsubscribe l op.
Proof.
  unfold unsubscribes. rewrite existsb_app. simpl.
  by rewrite orb_false_r.
Qed.

Lemma fan_out_lookup e ls qs l :
  fan_out e ls qs !! l
  = (λ q, if bool_decide (l ∈ ls) then put_nowait e q else q) <$> qs !! l.
Proof.
  unfold fan_out. rewrite map_lookup_imap. by destruct (qs !! l).
Qed.

Lemma delivered_put_nowait e q : delivered (put_nowait e q) = delivered q ++ [e].
Proof. unfold delivered, put_nowait. simpl. by rewrite app_assoc. Qed.

(** The listener that [subscribe] returns holds the replay buffer. *)
Lemma tracked_subscribe st :
  tracked (fst (subscribe st)) (buffer st) false (snd (subscribe st)).
Proof.
  unfold tracked, subscribe; simpl.
  exists (mkListenerQueue [] (buffer st)). rewrite lookup_insert_eq.
  unfold delivered; simpl.
  split; [done|]. split; [done|]. split; [done|]. split; [lia|].
  split; [done|]. intros _. split; [done|].
  destruct (dispatch_done st); [by right | left; set_solver].
Qed.

(** Every step of the run keeps the listener's queue in step with the
    buffer. *)
Lemma tracked_step l pre unsub op st :
  tracked l pre unsub st →
  tracked l pre (unsub || is_unsubscribe l op) (run_exec_op op st).
Proof.
  intros (q & Hq & Hpre & Hbuf & Hnext & Hsub & Hlive). unfold tracked.
  destruct op as [e|sys now| |l'|l']; simpl; rewrite ?orb_false_r.
  - exists q. done.
  - unfold dispatch_one.
    destruct (dispatch_done st) eqn:Hdone; [exists q; simpl; by rewrite ?Hdone|].
    destruct (queue st) as [|e rest]; [exists q; simpl; by rewrite ?Hdone|].
    destruct (if truthy_opt_str (run_race_id st)
              then handle_run_event (run_id st) e now sys
              else (Return tt, sys)) as [[[]|exn] sys']; simpl.
    + rewrite fan_out_lookup, Hq. simpl.
      destruct (decide (l ∈ listeners st)) as [Hin|Hout].
      * rewrite bool_decide_eq_true_2 by done.
        eexists. split; [done|]. rewrite delivered_put_nowait.
        rewrite (Hsub Hin).
        split; [|split; [done|split; [done|split; [done|]]]].
        { etrans; [exact Hpre|]. rewrite (Hsub Hin). by apply prefix_app_r. }
        intros _. split; [done | by left].
      * rewrite bool_decide_eq_false_2 by done.
        eexists. split; [done|].
        split; [done|]. split; [by apply prefix_app_r|]. split; [done|].
        split; [done|].
        intros Hu. destruct (Hlive Hu) as [_ [?|?]]; [done | congruence].
    + exists q. split; [done|]. split; [done|]. split; [done|].
      split; [done|]. split; [done|].
      intros Hu. destruct (Hlive Hu) as [? _]. split; [done | by right].
  - unfold subscribe; simpl. exists q.
    rewrite lookup_insert_ne by lia.
    split; [done|]. split; [done|]. split; [done|]. split; [lia|].
    assert (Hiff : l ∈ (if dispatch_done st then listeners st
                        else {[next_listener st]} ∪ listeners st)
                   → l ∈ listeners st).
    { destruct (dispatch_done st); [done|].
      intros [Heq%elem_of_singleton|?]%elem_of_union; [lia | done]. }
    split; [by intros ?%Hiff; apply Hsub|].
    intros Hu. destruct (Hlive Hu) as [? [?|?]]; split; try done.
    + left. destruct (dispatch_done st); set_solver.
    + by right.
  - exists q. unfold unsubscribe; simpl.
    split; [done|]. split; [done|]. split; [done|]. split; [done|].
    split; [intros [? _]%elem_of_difference; by apply Hsub|].
    intros [-> Hne]%orb_false_elim. apply Nat.eqb_neq in Hne.
    destruct (Hlive eq_refl) as [? [?|?]]; split; try done; [|by right].
    left. set_solver.
  - unfold listener_get.
    destruct (decide (l' = l)) as [->|Hne].
    + rewrite Hq. destruct q as [got [|e rest]]; [by exists (mkListenerQueue got [])|].
      simpl. eexists. rewrite lookup_insert_eq. split; [done|].
      unfold delivered in *; simpl in *. rewrite <- app_assoc. simpl. done.
    + destruct (listener_queues st !! l') as [[got [|e rest]]|]; try by exists q.
      simpl. exists q. by rewrite lookup_insert_ne.
Qed.

Lemma tracked_steps l pre ops st :
  tracked l pre false st →
  tracked l pre (unsubscribes l ops) (run_exec_ops ops st).
Proof.
  intros Hst. induction ops as [|op ops IH] using rev_ind; [done|].
  rewrite run_exec_ops_snoc, unsubscribes_snoc. by apply tracked_step.
Qed.

(** The buffer holds, in emission order, a prefix of what was put. *)
Lemma buffer_prefix_of_puts ops run rid :
  let st := run_exec_ops ops (new_run run rid) in
  ∃ mid, puts_of ops = buffer st ++ mid ++ queue st
         ∧ (mid ≠ [] → dispatch_done st = true).
Proof.
  induction ops as [|op ops IH] using rev_ind; simpl.
  - exists []. done.
  - rewrite run_exec_ops_snoc. unfold puts_of in *. rewrite omap_app. simpl.
    destruct IH as (mid & Hputs & Hmid). rewrite Hputs.
    set (st := run_exec_ops ops (new_run run rid)) in *.
    destruct op as [e|sys now| |l'|l']; simpl; rewrite ?app_nil_r.
    + exists mid. split; [by rewrite <- !app_assoc | done].
    + unfold dispatch_one.
      destruct (dispatch_done st) eqn:Hdone; [by exists mid|].
      destruct mid as [|m mid]; [|by specialize (Hmid ltac:(done))].
      destruct (queue st) as [|e rest] eqn:Hqueue;
        [exists []; simpl; by rewrite Hqueue|].
      destruct (if truthy_opt_str (run_race_id st)
                then handle_run_event (run_id st) e now sys
                else (Return tt, sys)) as [[[]|exn] sys']; simpl.
      * exists []. split; [by rewrite <- app_assoc | done].
      * exists [e]. done.
    + by exists mid.
    + by exists mid.
    + unfold listener_get.
      destruct (listener_queues st !! l') as [[got [|e rest]]|]; by exists mid.
Qed.

(** C8: a listener that subscribes after the run has dispatched some
    events holds exactly those events, the replay buffer, which is a
    prefix of what the producer emitted, in emission order; whatever
    happens afterwards, what the listener is given is that buffer followed
    by events dispatched later, in dispatch order, and as long as it is
    not unsubscribed it is given every one of them. *)
Theorem late_subscriber_gets_replay_first ops1 ops2 run rid :
  let st := run_exec_ops ops1 (new_run run rid) in
  let l := fst (subscribe st) in
  let st' := run_exec_ops ops2 (snd (subscribe st)) in
  buffer st `prefix_of` puts_of ops1
  ∧ (listener_queues (snd (subscribe st)) !! l
     = Some (mkListenerQueue [] (buffer st)))
  ∧ ∃ q live,
      listener_queues st' !! l = Some q
      ∧ delivered q = buffer st ++ live
      ∧ (buffer st ++ live) `prefix_of` buffer st'
      ∧ (unsubscribes l ops2 = false → buffer st' = buffer st ++ live).
Proof.
  intros st l st'. split; [|split].
  - destruct (buffer_prefix_of_puts ops1 run rid) as (mid & -> & _).
    by apply prefix_app_r.
  - unfold l, subscribe; simpl. by rewrite lookup_insert_eq.
  - destruct (tracked_steps l (buffer st) ops2 _ (tracked_subscribe st))
      as (q & Hq & [live Hpre] & Hbuf & _ & _ & Hlive).
    exists q, live. split; [done|]. split; [done|].
    split; [by rewrite <- Hpre|].
    intros Hu. destruct (Hlive Hu) as [Heq _].
    transitivity (delivered q); [symmetry; exact Heq | exact Hpre].
Qed.

Lemma late_subscriber_gets_replay_first_witness :
  unsubscribes 0 then_completes = false
  ∧ ∃ q,
      listener_queues
        (run_exec_ops then_completes
           (snd (subscribe (run_exec_ops three_dispatched (new_run "run1" None)))))
        !! 0%nat = Some q
      ∧ delivered q
        = [status_event "starting"; status_event "running";
           result_event "Paris"; complete_event].
Proof.
  split; [reflexivity|].
  destruct (late_subscriber_gets_replay_first three_dispatched then_completes
              "run1" None) as (_ & _ & q & live & Hq & Hd & _ & Hall).
  exists q. split; [exact Hq|].
  rewrite Hd, <- (Hall eq_refl). vm_compute. reflexivity.
Defined.

(** * Further properties of the code *)

(** ** The race manager *)

(** X1: every operation that looks a race up by an identifier that is not
    registered raises [KeyError] with the message of [get_race], and
    leaves the process state as it was. *)
Theorem unknown_race_is_key_error s rid :
  RACE_STATES s !! rid = None →
  get_race rid s = (Raise (KeyError ("Unknown race id " +:+ rid)), s)
  ∧ (∀ run now,
       register_agent_run rid run now s
       = (Raise (KeyError ("Unknown race id " +:+ rid)), s))
  ∧ (∀ sub now1 now2,
       record_human_submission rid sub now1 now2 s
       = (Raise (KeyError ("Unknown race id " +:+ rid)), s))
  ∧ (∀ now,
       mark_human_started rid now s
       = (Raise (KeyError ("Unknown race id " +:+ rid)), s)).
Proof.
  intros Hnone.
  unfold register_agent_run, record_human_submission, mark_human_started,
    bind, get_race.
  rewrite Hnone. done.
Qed.

Lemma unknown_race_is_key_error_witness :
  RACE_STATES (state_after race_to_judging) !! "race2" = None
  ∧ record_human_submission "race2" (Some "Paris") 200 201
      (state_after race_to_judging)
    = (Raise (KeyError "Unknown race id race2"), state_after race_to_judging).
Proof.
  assert (H : RACE_STATES (state_after race_to_judging) !! "race2" = None)
    by (vm_compute; reflexivity).
  split; [exact H|].
  exact (proj1 (proj2 (proj2 (unknown_race_is_key_error _ "race2" H)))
           (Some "Paris") 200 201).
Defined.

(** X2: in every reachable state [handle_run_event] returns normally,
    whatever the run and the event: an index entry always points to a
    registered race, so its [get_race] cannot fail. *)
Theorem handle_run_event_never_raises ops s run e now :
  exec_ops ops init_system = Some s →
  fst (handle_run_event run e now s) = Return tt.
Proof.
  intros Hrun.
  assert (Hok : sys_ok s) by (eapply exec_ops_ok; [apply sys_ok_init | done]).
  destruct Hok as (_ & Hroute & _).
  destruct (RUN_TO_RACE s !! run) as [rid|] eqn:Hr;
    [|by unfold handle_run_event; rewrite Hr].
  destruct (truthy_str rid) eqn:Hrid;
    [|by unfold handle_run_event; rewrite Hr, Hrid].
  destruct (Hroute _ _ Hr) as (r & Hrace & _).
  by rewrite (handle_run_event_bound s run e now rid r).
Qed.

Lemma handle_run_event_never_raises_witness :
  exec_ops human_first init_system = Some (state_after human_first)
  ∧ fst (handle_run_event "run1" (result_event "Paris") 140
           (state_after human_first)) = Return tt.
Proof.
  split; [vm_compute; reflexivity|].
  apply (handle_run_event_never_raises human_first). vm_compute; reflexivity.
Defined.

(** X3: once a [complete] event of a run has been handled in a reachable
    state, every later event of that run is dropped: the state stays as
    the [complete] left it. *)
Theorem events_after_complete_are_dropped ops s run done now e now' :
  exec_ops ops init_system = Some s →
  ev_type done = Some "complete" →
  handle_run_event run e now'
    (snd (handle_run_event run done now s))
  = (Return tt, snd (handle_run_event run done now s)).
Proof.
  intros Hrun Hdone.
  assert (Hok : sys_ok s) by (eapply exec_ops_ok; [apply sys_ok_init | done]).
  destruct Hok as (_ & Hroute & _).
  destruct (RUN_TO_RACE s !! run) as [rid|] eqn:Hr.
  2:{ assert (Hsame : ∀ e0 t, handle_run_event run e0 t s = (Return tt, s))
        by (intros; unfold handle_run_event; by rewrite Hr).
      by rewrite !Hsame. }
  destruct (truthy_str rid) eqn:Hrid.
  2:{ assert (Hsame : ∀ e0 t, handle_run_event run e0 t s = (Return tt, s))
        by (intros; unfold handle_run_event; by rewrite Hr, Hrid).
      by rewrite !Hsame. }
  destruct (Hroute _ _ Hr) as (r & Hrace & _).
  rewrite (handle_run_event_bound s run done now rid r) by done. simpl.
  rewrite Hdone. simpl.
  unfold handle_run_event, after_finalize.
  destruct (should_finalize _); simpl; by rewrite lookup_delete_eq.
Qed.

Lemma events_after_complete_are_dropped_witness :
  exec_ops agent_waits init_system = Some (state_after agent_waits)
  ∧ handle_run_event "run1" (result_event "Rome") 121
      (snd (handle_run_event "run1" complete_event 120
              (state_after agent_waits)))
    = (Return tt,
       snd (handle_run_event "run1" complete_event 120
              (state_after agent_waits))).
Proof.
  split; [vm_compute; reflexivity|].
  apply (events_after_complete_are_dropped agent_waits);
    [vm_compute; reflexivity | reflexivity].
Defined.

Lemma apply_event_unhandled e now r :
  unhandled_type e = true → apply_event e now r = r.
Proof.
  unfold unhandled_type, apply_event. intros H%negb_true_iff.
  repeat (apply orb_false_elim in H as [H ?]).
  by repeat match goal with Heq : is_str _ _ = false |- _ => rewrite Heq; clear Heq end.
Qed.

(** X4: an event of a type the handler has no branch for, such as the
    executor's [log] events, changes nothing in a reachable state. *)
Theorem unhandled_event_changes_nothing ops s run e now :
  exec_ops ops init_system = Some s →
  unhandled_type e = true →
  handle_run_event run e now s = (Return tt, s).
Proof.
  intros Hrun Hun.
  assert (Hok : sys_ok s) by (eapply exec_ops_ok; [apply sys_ok_init | done]).
  destruct Hok as (Hraces & Hroute & _).
  destruct (RUN_TO_RACE s !! run) as [rid|] eqn:Hr;
    [|by unfold handle_run_event; rewrite Hr].
  destruct (truthy_str rid) eqn:Hrid;
    [|by unfold handle_run_event; rewrite Hr, Hrid].
  destruct (Hroute _ _ Hr) as (r & Hrace & _).
  rewrite (handle_run_event_bound s run e now rid r) by done.
  rewrite (apply_event_unhandled e now r Hun).
  assert (Hc : is_str (ev_type e) "complete" = false).
  { unfold unhandled_type in Hun. apply negb_true_iff in Hun.
    by apply orb_false_elim in Hun as [_ ?]. }
  rewrite Hc. unfold after_finalize.
  destruct (Hraces _ _ Hrace) as [_ ->].
  rewrite insert_id by done. by destruct s.
Qed.

Lemma unhandled_event_changes_nothing_witness :
  exec_ops human_waits init_system = Some (state_after human_waits)
  ∧ unhandled_type log_event = true
  ∧ handle_run_event "run1" log_event 140 (state_after human_waits)
    = (Return tt, state_after human_waits).
Proof.
  split; [vm_compute; reflexivity|]. split; [reflexivity|].
  apply (unhandled_event_changes_nothing human_waits);
    [vm_compute; reflexivity | reflexivity].
Defined.

Lemma human_ready_frame r r' :
  task r' = task r → human r' = human r →
  human_submission r' = human_submission r →
  human_ready r' = human_ready r.
Proof. unfold human_ready. by intros -> -> ->. Qed.

(** X5: when the human side is ready and no judgement has been started,
    an [error] event, or a [result] event that carries a result, starts
    the judgement in that very step: the race is judging with the flag
    set, and one judge task has been created for it. *)
Theorem agent_outcome_starts_judgement s run rid r e now :
  RUN_TO_RACE s !! run = Some rid → truthy_str rid = true →
  RACE_STATES s !! rid = Some r →
  verdict r = None → finalizing r = false → human_ready r = true →
  ev_type e = Some "error"
  ∨ (ev_type e = Some "result" ∧ is_Some (ev_result e)) →
  ∃ r', RACE_STATES (snd (handle_run_event run e now s)) !! rid = Some r'
    ∧ status r' = judging ∧ finalizing r' = true ∧ verdict r' = None
    ∧ (ev_type e = Some "result" → result (agent r') = ev_result e)
    ∧ judge_calls (snd (handle_run_event run e now s)) = judge_calls s ++ [rid]
    ∧ pending_judgements (snd (handle_run_event run e now s))
      = pending_judgements s ++ [rid].
Proof.
  intros Hrun Hrid Hr Hv Hf Hh He.
  rewrite (handle_run_event_bound s run e now rid r) by done. simpl.
  destruct (apply_event_frame e now r) as (_ & Ht & _ & _ & Hhu & Hsub & Hv' & Hf').
  assert (Hready : agent_ready (apply_event e now r) = true
                   ∧ (ev_type e = Some "result" →
                      result (agent (apply_event e now r)) = ev_result e)).
  { unfold apply_event. destruct He as [He|[He [res Hres]]]; rewrite He; simpl.
    - split; [|done]. unfold on_error, agent_ready; simpl.
      by destruct (result (agent r)).
    - unfold on_result. rewrite Hres.
      split; [|intros _]; unfold agent_ready;
        destruct (truthy_ts _); simpl; done. }
  destruct Hready as [Hready Hres].
  assert (Hs : should_finalize (apply_event e now r) = true).
  { unfold should_finalize. rewrite Hv', Hv, Hf', Hf, Hready.
    by rewrite (human_ready_frame r (apply_event e now r)). }
  unfold after_finalize, finalize_on. rewrite Hs. simpl.
  rewrite lookup_insert_eq. eexists. split; [done|]. simpl.
  rewrite Hv', Hv. repeat split; try done.
Qed.

Lemma agent_outcome_starts_judgement_witness :
  ∃ r r',
    RACE_STATES (state_after human_waits) !! "race1" = Some r
    ∧ human_ready r = true ∧ status r = running
    ∧ RACE_STATES (snd (handle_run_event "run1" error_event 140
                          (state_after human_waits))) !! "race1" = Some r'
    ∧ status r' = judging
    ∧ judge_calls (snd (handle_run_event "run1" error_event 140
                          (state_after human_waits)))
      = judge_calls (state_after human_waits) ++ ["race1"].
Proof.
  assert (∃ r, RACE_STATES (state_after human_waits) !! "race1" = Some r
               ∧ human_ready r = true ∧ status r = running
               ∧ verdict r = None ∧ finalizing r = false)
    as (r & Hr & Hh & Hst & Hv & Hf) by (vm_compute; eauto 10).
  destruct (agent_outcome_starts_judgement (state_after human_waits) "run1"
              "race1" r error_event 140)
    as (r' & Hr' & Hj & _ & _ & _ & Hcalls & _);
    [vm_compute; reflexivity | reflexivity | exact Hr | exact Hv | exact Hf
    | exact Hh | left; reflexivity |].
  exists r, r'. split; [exact Hr|]. split; [exact Hh|]. split; [exact Hst|].
  split; [exact Hr'|]. split; [exact Hj | exact Hcalls].
Defined.

(** X6: when the agent side is ready and no judgement has been started, a
    human submission starts the judgement in that very call, for either
    task type: the returned race is judging with the flag set, the human
    is completed with the submitted text, and one judge task has been
    created. *)
Theorem submission_starts_judgement s rid r sub now1 now2 :
  RACE_STATES s !! rid = Some r →
  verdict r = None → finalizing r = false → agent_ready r = true →
  ∃ r', fst (record_human_submission rid sub now1 now2 s) = Return r'
    ∧ RACE_STATES (snd (record_human_submission rid sub now1 now2 s)) !! rid
      = Some r'
    ∧ status r' = judging ∧ finalizing r' = true ∧ verdict r' = None
    ∧ p_status (human r') = "completed"
    ∧ human_submission r' = Some (str_or_empty sub)
    ∧ judge_calls (snd (record_human_submission rid sub now1 now2 s))
      = judge_calls s ++ [rid]
    ∧ pending_judgements (snd (record_human_submission rid sub now1 now2 s))
      = pending_judgements s ++ [rid].
Proof.
  intros Hr Hv Hf Ha.
  rewrite (record_human_submission_result s rid r) by done. simpl.
  destruct (submit_on_frame sub now1 now2 r)
    as (_ & Ht & _ & _ & _ & Hag & Hv' & Hf').
  assert (Hhuman : p_status (human (submit_on sub now1 now2 r)) = "completed"
                   ∧ human_submission (submit_on sub now1 now2 r)
                     = Some (str_or_empty sub)).
  { destruct r as [rid0 t ca st ar ag hu hsub v fin].
    unfold submit_on; simpl. repeat (case_match; simpl); done. }
  destruct Hhuman as [Hst Hsub].
  assert (Hs : should_finalize (submit_on sub now1 now2 r) = true).
  { unfold should_finalize. rewrite Hv', Hv, Hf', Hf.
    unfold agent_ready, human_ready in *. rewrite Hag, Ha, Ht, Hsub, Hst.
    by destruct (String.eqb (task_type (task r)) "text_entry"). }
  unfold after_finalize, finalize_on. rewrite Hs. simpl.
  rewrite lookup_insert_eq. eexists. split; [done|]. simpl.
  rewrite Hv', Hv. repeat split; done.
Qed.

Lemma submission_starts_judgement_witness :
  ∃ r r',
    RACE_STATES (state_after agent_waits) !! "race1" = Some r
    ∧ agent_ready r = true ∧ status r = running
    ∧ fst (record_human_submission "race1" None 130 131
             (state_after agent_waits)) = Return r'
    ∧ status r' = judging
    ∧ human_submission r' = Some "".
Proof.
  assert (∃ r, RACE_STATES (state_after agent_waits) !! "race1" = Some r
               ∧ agent_ready r = true ∧ status r = running
               ∧ verdict r = None ∧ finalizing r = false)
    as (r & Hr & Ha & Hst & Hv & Hf) by (vm_compute; eauto 10).
  destruct (submission_starts_judgement (state_after agent_waits) "race1" r
              None 130 131 Hr Hv Hf Ha)
    as (r' & Hret & _ & Hj & _ & _ & _ & Hsub & _).
  exists r, r'. split; [exact Hr|]. split; [exact Ha|]. split; [exact Hst|].
  split; [exact Hret|]. split; [exact Hj | exact Hsub].
Defined.

(** X7: a submission by a human who never called start, in a reachable
    state, takes both timestamps itself: started-at is the first clock
    reading, completed-at the second, and the duration their
    difference. *)
Theorem submission_without_start ops s rid r sub now1 now2 :
  exec_ops ops init_system = Some s →
  RACE_STATES s !! rid = Some r →
  p_status (human r) = "pending" →
  0 < now1 →
  ∃ r', fst (record_human_submission rid sub now1 now2 s) = Return r'
    ∧ p_status (human r') = "completed"
    ∧ started_at (human r') = Some now1
    ∧ completed_at (human r') = Some now2
    ∧ duration_seconds (human r') = Some (now2 - now1).
Proof.
  intros Hrun Hr Hp Hn1.
  assert (Hok : sys_ok s) by (eapply exec_ops_ok; [apply sys_ok_init | done]).
  destruct Hok as (Hraces & _).
  destruct (Hraces _ _ Hr) as [[_ _ _ _ _ _ _ _ _ Hh Hhs] _].
  rewrite (record_human_submission_result s rid r) by done. simpl.
  destruct (finalize_on_frame (submit_on sub now1 now2 r))
    as (_ & _ & _ & _ & _ & Hfh & _).
  eexists. split; [done|]. rewrite Hfh. clear Hfh.
  destruct r as [rid0 t ca st ar ag hu hsub v fin]; simpl in *.
  destruct hu as [hs hst hco hd hr hl]; simpl in *. subst hs.
  unfold human_ok in Hhs; simpl in Hhs.
  destruct Hhs as [(_ & -> & -> & _)|[(? & _)|(? & _)]]; [|done..].
  destruct Hh as [_ _ _ Hd]; unfold elapsed in Hd; simpl in Hd. subst hd.
  unfold submit_on; simpl. rewrite !ts_or_none, (truthy_ts_pos now1 Hn1).
  simpl. unfold elapsed; simpl.
  destruct (String.eqb (task_type t) "text_entry"); done.
Qed.

Lemma submission_without_start_witness :
  exec_ops agent_waits init_system = Some (state_after agent_waits)
  ∧ ∃ r r',
      RACE_STATES (state_after agent_waits) !! "race1" = Some r
      ∧ p_status (human r) = "pending"
      ∧ fst (record_human_submission "race1" (Some "Paris") 130 137
               (state_after agent_waits)) = Return r'
      ∧ started_at (human r') = Some 130
      ∧ duration_seconds (human r') = Some (137 - 130).
Proof.
  split; [vm_compute; reflexivity|].
  assert (∃ r, RACE_STATES (state_after agent_waits) !! "race1" = Some r
               ∧ p_status (human r) = "pending")
    as (r & Hr & Hp) by (vm_compute; eauto).
  destruct (submission_without_start agent_waits (state_after agent_waits)
              "race1" r (Some "Paris") 130 137)
    as (r' & Hret & _ & Hs & _ & Hd);
    [vm_compute; reflexivity | exact Hr | exact Hp | lia |].
  exists r, r'. split; [exact Hr|]. split; [exact Hp|]. split; [exact Hret|].
  split; [exact Hs | exact Hd].
Defined.

Lemma start_human_on_twice now1 now2 r :
  start_human_on now2 (start_human_on now1 r) = start_human_on now1 r.
Proof.
  destruct r as [rid0 t ca st ar ag hu hsub v fin].
  destruct hu as [hs hst hco hd hr hl].
  unfold start_human_on; simpl.
  destruct (String.eqb hs "completed") eqn:Hc; simpl; [by rewrite Hc|].
  destruct (String.eqb hs "pending") eqn:Hp; simpl; [|by rewrite Hc, Hp].
  by destruct st.
Qed.

(** X8: calling [mark_human_started] a second time changes nothing: the
    start time of the first call stays, whatever the clock says at the
    second. *)
Theorem second_human_start_changes_nothing s rid now1 now2 :
  snd (mark_human_started rid now2 (snd (mark_human_started rid now1 s)))
  = snd (mark_human_started rid now1 s).
Proof.
  unfold mark_human_started, bind, get_race.
  destruct (RACE_STATES s !! rid) as [r|] eqn:Hr; simpl.
  - rewrite lookup_insert_eq. simpl.
    by rewrite start_human_on_twice, insert_insert_eq.
  - by rewrite Hr.
Qed.

(** X18: in every reachable state the status of a race says where its
    judgement stands: it is judging exactly while the flag is set,
    completed exactly when a verdict is stored, never both; and a race
    with no run bound has an untouched agent and is ready or running. *)
Theorem status_reflects_judgement ops s rid r :
  exec_ops ops init_system = Some s →
  RACE_STATES s !! rid = Some r →
  (status r = judging ↔ finalizing r = true)
  ∧ (status r = completed ↔ is_Some (verdict r))
  ∧ (finalizing r = true → verdict r = None)
  ∧ (agent_run_id r = None →
     agent r = new_participant ∧ (status r = ready ∨ status r = running))
  ∧ (is_Some (agent_run_id r) → is_Some (started_at (agent r))).
Proof.
  intros Hrun Hr.
  assert (Hok : sys_ok s) by (eapply exec_ops_ok; [apply sys_ok_init | done]).
  destruct Hok as (Hraces & _).
  destruct (Hraces _ _ Hr) as [[_ _ _ Ie Ij Icm Inr _ Ias _ _] _].
  split; [done|]. split.
  { rewrite Icm. destruct (verdict r); split; try done; eauto;
      try by intros [? ?]. }
  split; [done|]. split; [done|].
  intros [run Hb]. destruct (started_at (agent r)) eqn:Hst; [eauto|].
  exfalso. apply Ias; [by rewrite Hb | done].
Qed.

Lemma status_reflects_judgement_witness :
  exec_ops race_to_judging init_system = Some (state_after race_to_judging)
  ∧ ∃ r, RACE_STATES (state_after race_to_judging) !! "race1" = Some r
      ∧ (status r = judging ↔ finalizing r = true)
      ∧ (status r = completed ↔ is_Some (verdict r)).
Proof.
  split; [vm_compute; reflexivity|].
  assert (is_Some (RACE_STATES (state_after race_to_judging) !! "race1"))
    as [r Hr] by (vm_compute; eauto).
  destruct (status_reflects_judgement race_to_judging
              (state_after race_to_judging) "race1" r)
    as (H1 & H2 & _); [vm_compute; reflexivity | exact Hr |].
  exists r. split; [exact Hr|]. split; [exact H1 | exact H2].
Defined.

(** X19: in every reachable state the human side is pending, running or
    completed; it is completed exactly when a submission is stored and
    exactly when completed-at is set, and pending exactly when
    started-at is unset. *)
Theorem human_side_progression ops s rid r :
  exec_ops ops init_system = Some s →
  RACE_STATES s !! rid = Some r →
  (p_status (human r) = "pending" ∨ p_status (human r) = "running"
   ∨ p_status (human r) = "completed")
  ∧ (p_status (human r) = "completed" ↔ is_Some (human_submission r))
  ∧ (p_status (human r) = "completed" ↔ is_Some (completed_at (human r)))
  ∧ (p_status (human r) = "pending" ↔ started_at (human r) = None).
Proof.
  intros Hrun Hr.
  assert (Hok : sys_ok s) by (eapply exec_ops_ok; [apply sys_ok_init | done]).
  destruct Hok as (Hraces & _).
  destruct (Hraces _ _ Hr) as [[_ _ _ _ _ _ _ _ _ Hh Hhs] _].
  destruct Hh as [_ _ Hcs _].
  destruct Hhs as [(Hp & Hst & Hco & Hsub)|[(Hp & Hst & Hco & Hsub)
                  |(Hp & Hco & Hsub)]]; rewrite Hp.
  - rewrite Hst, Hco, Hsub. repeat split; try done; auto.
    all: by intros [? ?].
  - rewrite Hco, Hsub. repeat split; try done; auto.
    all: by intros [? ?].
  - split; [auto|]. split; [|split].
    + split; [intros _|done]. by destruct (human_submission r); eauto.
    + split; [intros _|done]. by destruct (completed_at (human r)); eauto.
    + split; [done|]. intros Hst. by destruct (Hcs Hco).
Qed.

Lemma human_side_progression_witness :
  exec_ops human_waits init_system = Some (state_after human_waits)
  ∧ ∃ r, RACE_STATES (state_after human_waits) !! "race1" = Some r
      ∧ (p_status (human r) = "completed" ↔ is_Some (human_submission r)).
Proof.
  split; [vm_compute; reflexivity|].
  assert (is_Some (RACE_STATES (state_after human_waits) !! "race1"))
    as [r Hr] by (vm_compute; eauto).
  destruct (human_side_progression human_waits (state_after human_waits)
              "race1" r) as (_ & H & _);
    [vm_compute; reflexivity | exact Hr |].
  exists r. split; [exact Hr | exact H].
Defined.

(** X12: [clear_race] removes the race and every index entry that points
    to it, and nothing else; afterwards an event of one of its runs is
    dropped. *)
Theorem clear_race_removes_race_and_routes s rid :
  RACE_STATES (snd (clear_race rid s)) !! rid = None
  ∧ (∀ run, RUN_TO_RACE (snd (clear_race rid s)) !! run ≠ Some rid)
  ∧ (∀ other, other ≠ rid →
       RACE_STATES (snd (clear_race rid s)) !! other = RACE_STATES s !! other)
  ∧ (∀ run other, other ≠ rid →
       (RUN_TO_RACE (snd (clear_race rid s)) !! run = Some other
        ↔ RUN_TO_RACE s !! run = Some other))
  ∧ (∀ run e now, RUN_TO_RACE s !! run = Some rid →
       handle_run_event run e now (snd (clear_race rid s))
       = (Return tt, snd (clear_race rid s))).
Proof.
  unfold clear_race; simpl. split; [apply lookup_delete_eq|].
  split; [intros run [_ H]%map_lookup_filter_Some; by simpl in H|].
  split; [intros other Hne; by rewrite lookup_delete_ne|].
  split.
  - intros run other Hne. rewrite map_lookup_filter_Some. simpl. naive_solver.
  - intros run e now Hr. unfold handle_run_event; simpl.
    destruct (filter _ _ !! run) as [x|] eqn:Hx; [|done].
    apply map_lookup_filter_Some in Hx as [Hx Hne]. simpl in Hne. congruence.
Qed.

(** ** The judge's reply, continued *)



(** X10: whatever verdict [judge_race] returns, its winner is one of
    agent, human and tie, its reasoning is the reply's reasoning as it
    came, and its scores are the converted scores of the reply. *)
Theorem judge_race_verdict_shape float_of_str float_of_int py_repr
    (verdict : gmap string json) v :
  judge_race float_of_str float_of_int py_repr verdict = Return v →
  known_winner (winner v) = true
  ∧ verdict !! "reasoning" = Some (reasoning v)
  ∧ py_float float_of_str float_of_int <$> verdict !! "agent_score"
    = Some (FloatOk (agent_score v))
  ∧ py_float float_of_str float_of_int <$> verdict !! "human_score"
    = Some (FloatOk (human_score v)).
Proof.
  unfold judge_race, convert_score.
  destruct (filter _ required_keys); [|done].
  destruct (verdict !! "winner") as [w|]; [|done].
  destruct (verdict !! "reasoning") as [why|]; [|done].
  destruct (verdict !! "agent_score") as [a|]; [|done].
  destruct (verdict !! "human_score") as [h|]; [|done].
  destruct (py_float float_of_str float_of_int a) eqn:Ha; try done.
  destruct (py_float float_of_str float_of_int h) eqn:Hh; try done.
  intros [= <-]. simpl. rewrite Ha, Hh. split; [|done].
  destruct (known_winner (lower (py_str py_repr w))) eqn:Hk; done.
Qed.

Lemma judge_race_verdict_shape_witness :
  judge_race sample_float_of_str sample_float_of_int sample_repr sample_reply
  = Return (mkVerdict "tie" (JStr "close") (FFinite 6 0) (FFinite 15 (-1)))
  ∧ known_winner "tie" = true
  ∧ sample_reply !! "reasoning" = Some (JStr "close").
Proof.
  assert (H : judge_race sample_float_of_str sample_float_of_int sample_repr
                sample_reply
              = Return (mkVerdict "tie" (JStr "close") (FFinite 6 0)
                                  (FFinite 15 (-1))))
    by (vm_compute; reflexivity).
  split; [exact H|].
  destruct (judge_race_verdict_shape _ _ _ _ _ H) as (Hw & Hy & _).
  split; [exact Hw | exact Hy].
Defined.

(** X11: the scores are converted in the order agent, human.  With an
    agent score that converts, a human score that does not is reported as
    [human_score]; and a conversion that fails with anything but
    [TypeError] or [ValueError] (an integer too large for a float) is not
    wrapped, for either score: the [OverflowError] of the agent score, or
    of the human score after an agent score that converts, leaves the
    function as it is. *)
Theorem judge_race_score_errors float_of_str float_of_int py_repr
    (verdict : gmap string json) w why a h :
  verdict !! "winner" = Some w → verdict !! "reasoning" = Some why →
  verdict !! "agent_score" = Some a → verdict !! "human_score" = Some h →
  (∀ fa, py_float float_of_str float_of_int a = FloatOk fa →
         py_float float_of_str float_of_int h = FloatTypeError
         ∨ py_float float_of_str float_of_int h = FloatValueError →
         judge_race float_of_str float_of_int py_repr verdict
         = Raise (RuntimeError ("Judge response human_score is not numeric: "
                                +:+ py_repr h)))
  ∧ (py_float float_of_str float_of_int a = FloatOverflowError →
     judge_race float_of_str float_of_int py_repr verdict
     = Raise (OverflowError "int too large to convert to float"))
  ∧ (∀ fa, py_float float_of_str float_of_int a = FloatOk fa →
           py_float float_of_str float_of_int h = FloatOverflowError →
           judge_race float_of_str float_of_int py_repr verdict
           = Raise (OverflowError "int too large to convert to float")).
Proof.
  intros Hw Hy Ha Hh. unfold judge_race.
  rewrite (no_missing_keys verdict w why a h) by done.
  rewrite Hw, Hy, Ha, Hh. unfold convert_score.
  split; [|split].
  - intros fa -> [-> | ->]; done.
  - by intros ->.
  - by intros fa -> ->.
Qed.

Lemma judge_race_score_errors_witness :
  reply_null_human_score !! "human_score" = Some JNull
  ∧ judge_race sample_float_of_str sample_float_of_int sample_repr
      reply_null_human_score
    = Raise (RuntimeError "Judge response human_score is not numeric: None")
  ∧ reply_huge_human_score !! "human_score" = Some (JInt (2 ^ 1024))
  ∧ judge_race sample_float_of_str overflowing_float_of_int sample_repr
      reply_huge_human_score
    = Raise (OverflowError "int too large to convert to float").
Proof.
  assert (Hw : reply_null_human_score !! "winner" = Some (JStr "Robot"))
    by (vm_compute; reflexivity).
  assert (Hy : reply_null_human_score !! "reasoning" = Some (JStr "close"))
    by (vm_compute; reflexivity).
  assert (Ha : reply_null_human_score !! "agent_score" = Some (JInt 6))
    by (vm_compute; reflexivity).
  assert (Hh : reply_null_human_score !! "human_score" = Some JNull)
    by (vm_compute; reflexivity).
  assert (Hw' : reply_huge_human_score !! "winner" = Some (JStr "Robot"))
    by (vm_compute; reflexivity).
  assert (Hy' : reply_huge_human_score !! "reasoning" = Some (JStr "close"))
    by (vm_compute; reflexivity).
  assert (Ha' : reply_huge_human_score !! "agent_score" = Some (JInt 6))
    by (vm_compute; reflexivity).
  assert (Hh' : reply_huge_human_score !! "human_score"
                = Some (JInt (2 ^ 1024)))
    by (vm_compute; reflexivity).
  split; [exact Hh|]. split.
  - exact (proj1 (judge_race_score_errors sample_float_of_str
                    sample_float_of_int sample_repr reply_null_human_score
                    _ _ _ _ Hw Hy Ha Hh)
                 (FFinite 6 0) eq_refl (or_introl eq_refl)).
  - split; [exact Hh'|].
    apply (proj2 (proj2 (judge_race_score_errors sample_float_of_str
                           overflowing_float_of_int sample_repr
                           reply_huge_human_score _ _ _ _ Hw' Hy' Ha' Hh'))
                 (FFinite 6 0)); vm_compute; reflexivity.
Defined.

(** ** The event stream and the server, continued *)

Lemma Forall_removelast {A} (P : A → Prop) (l : list A) :
  Forall P l → Forall P (removelast l).
Proof.
  induction 1 as [|x l Hx Hl IH]; simpl; [done|].
  destruct l; [done|]. by constructor.
Qed.

(** X14: the replay buffer of a run holds at most one [complete] event,
    and only as its last entry; while the dispatch loop is running it
    holds none. *)
Theorem buffer_closes_with_complete ops run rid :
  (dispatch_done (run_exec_ops ops (new_run run rid)) = false →
   Forall not_complete (buffer (run_exec_ops ops (new_run run rid))))
  ∧ Forall not_complete
      (removelast (buffer (run_exec_ops ops (new_run run rid)))).
Proof.
  induction ops as [|op ops IH] using rev_ind; [by split|].
  rewrite run_exec_ops_snoc.
  set (st := run_exec_ops ops (new_run run rid)) in *.
  destruct IH as [IHopen IHlast].
  destruct op as [e|sys now| |l'|l']; simpl; try by split.
  - unfold dispatch_one.
    destruct (dispatch_done st) eqn:Hdone;
      [split; simpl; [intros ?; congruence | done]|].
    destruct (queue st) as [|e rest];
      [split; simpl; [intros _; by apply IHopen | done]|].
    destruct (if truthy_opt_str (run_race_id st)
              then handle_run_event (run_id st) e now sys
              else (Return tt, sys)) as [[[]|exn] sys']; simpl.
    + rewrite removelast_last. split; [|by apply IHopen].
      intros He. apply Forall_app. split; [by apply IHopen|].
      by constructor.
    + split; [done|]. by apply Forall_removelast, IHopen.
  - unfold listener_get.
    destruct (listener_queues st !! l') as [[got [|e rest]]|]; by split.
Qed.

(** X15: once the dispatch loop has ended, nothing is dispatched any
    more: under any further puts, dispatch attempts, subscriptions,
    unsubscriptions and reads, the buffer stays as it is, the loop stays
    ended, events that are put pile up in the queue, and no listener is
    added. *)
Theorem nothing_dispatched_after_close ops st :
  dispatch_done st = true →
  buffer (run_exec_ops ops st) = buffer st
  ∧ dispatch_done (run_exec_ops ops st) = true
  ∧ queue (run_exec_ops ops st) = queue st ++ puts_of ops
  ∧ listeners (run_exec_ops ops st) ⊆ listeners st.
Proof.
  intros Hdone. induction ops as [|op ops IH] using rev_ind.
  { simpl. unfold puts_of. simpl. rewrite app_nil_r. done. }
  rewrite run_exec_ops_snoc. unfold puts_of in *. rewrite omap_app.
  set (st' := run_exec_ops ops st) in *.
  destruct IH as (Hb & Hd & Hq & Hl).
  destruct op as [e|sys now| |l'|l']; simpl; rewrite ?app_nil_r.
  - rewrite Hq, app_assoc. done.
  - unfold dispatch_one. rewrite Hd. done.
  - rewrite Hd. done.
  - repeat split; try done. set_solver.
  - unfold listener_get.
    destruct (listener_queues st' !! l') as [[got [|e rest]]|]; done.
Qed.

Lemma nothing_dispatched_after_close_witness :
  dispatch_done (run_exec_ops run_completed (new_run "run1" None)) = true
  ∧ buffer (run_exec_ops [RunPut (result_event "late"); RunDispatch init_system 9]
              (run_exec_ops run_completed (new_run "run1" None)))
    = buffer (run_exec_ops run_completed (new_run "run1" None)).
Proof.
  assert (H : dispatch_done (run_exec_ops run_completed (new_run "run1" None))
              = true) by (vm_compute; reflexivity).
  split; [exact H|].
  exact (proj1 (nothing_dispatched_after_close
                  [RunPut (result_event "late"); RunDispatch init_system 9]
                  _ H)).
Defined.

(** The listener queues of a run are named below [next_listener]. *)
Lemma listener_ids_below_next ops run rid l q :
  listener_queues (run_exec_ops ops (new_run run rid)) !! l = Some q →
  (l < next_listener (run_exec_ops ops (new_run run rid)))%nat.
Proof.
  revert l q. induction ops as [|op ops IH] using rev_ind; intros l q.
  { simpl. by rewrite lookup_empty. }
  rewrite run_exec_ops_snoc.
  set (st := run_exec_ops ops (new_run run rid)) in *.
  destruct op as [e|sys now| |l'|l']; simpl; try by apply IH.
  - unfold dispatch_one.
    destruct (dispatch_done st); [by apply IH|].
    destruct (queue st) as [|e rest]; [by apply IH|].
    destruct (if truthy_opt_str (run_race_id st)
              then handle_run_event (run_id st) e now sys
              else (Return tt, sys)) as [[[]|exn] sys']; simpl;
      [|by apply IH].
    rewrite fan_out_lookup.
    destruct (listener_queues st !! l) as [q0|] eqn:Hq0; [|done].
    intros _. by eapply IH.
  - destruct (decide (l = next_listener st)) as [->|Hne]; [lia|].
    rewrite lookup_insert_ne by done. intros H%IH. lia.
  - unfold listener_get.
    destruct (listener_queues st !! l') as [[got [|e rest]]|] eqn:Hl';
      try by apply IH.
    simpl. destruct (decide (l = l')) as [->|Hne].
    + intros _. by eapply IH.
    + rewrite lookup_insert_ne by done. by apply IH.
Qed.

(** A listener that is not subscribed keeps what it was given. *)
Lemma unsubscribed_step l d op st :
  (∃ q, listener_queues st !! l = Some q ∧ delivered q = d)
  ∧ (l ∉ listeners st) ∧ (l < next_listener st)%nat →
  (∃ q, listener_queues (run_exec_op op st) !! l = Some q ∧ delivered q = d)
  ∧ (l ∉ listeners (run_exec_op op st))
  ∧ (l < next_listener (run_exec_op op st))%nat.
Proof.
  intros ((q & Hq & Hd) & Hout & Hnext).
  destruct op as [e|sys now| |l'|l']; simpl.
  - eauto.
  - unfold dispatch_one.
    destruct (dispatch_done st); [eauto|].
    destruct (queue st) as [|e rest]; [eauto|].
    destruct (if truthy_opt_str (run_race_id st)
              then handle_run_event (run_id st) e now sys
              else (Return tt, sys)) as [[[]|exn] sys']; simpl; [|eauto].
    rewrite fan_out_lookup, Hq. simpl.
    rewrite bool_decide_eq_false_2 by done. eauto.
  - rewrite lookup_insert_ne by lia.
    split; [eauto|]. split; [|lia].
    destruct (dispatch_done st); [done|]. set_solver by lia.
  - split; [eauto|]. split; [set_solver | done].
  - unfold listener_get.
    destruct (decide (l' = l)) as [->|Hne].
    + rewrite Hq. destruct q as [got [|e rest]]; [eauto|].
      simpl. rewrite lookup_insert_eq. split; [|done].
      eexists. split; [done|]. unfold delivered in *; simpl in *.
      by rewrite <- app_assoc.
    + destruct (listener_queues st !! l') as [[got [|e rest]]|]; eauto.
      simpl. rewrite lookup_insert_ne by done. eauto.
Qed.

(** X13: after [unsubscribe], a listener is given nothing more: whatever
    is put, dispatched, subscribed or read afterwards, its queue has been
    given exactly what it had been given before. *)
Theorem unsubscribed_listener_gets_nothing_more ops1 ops2 run rid l q :
  listener_queues (run_exec_ops ops1 (new_run run rid)) !! l = Some q →
  ∃ q',
    listener_queues
      (run_exec_ops ops2 (unsubscribe l (run_exec_ops ops1 (new_run run rid))))
      !! l = Some q'
    ∧ delivered q' = delivered q.
Proof.
  intros Hq. pose proof (listener_ids_below_next _ _ _ _ _ Hq) as Hnext.
  set (st := run_exec_ops ops1 (new_run run rid)) in *.
  assert (Hinv : (∃ q', listener_queues (run_exec_ops ops2 (unsubscribe l st))
                          !! l = Some q' ∧ delivered q' = delivered q)
                 ∧ (l ∉ listeners (run_exec_ops ops2 (unsubscribe l st)))
                 ∧ (l < next_listener (run_exec_ops ops2 (unsubscribe l st)))%nat).
  { induction ops2 as [|op ops2 IH] using rev_ind.
    - simpl. split; [eauto|]. split; [set_solver | done].
    - rewrite run_exec_ops_snoc. by apply unsubscribed_step. }
  apply Hinv.
Qed.

Lemma unsubscribed_listener_gets_nothing_more_witness :
  ∃ q q',
    listener_queues (run_exec_ops [RunSubscribe; RunPut (status_event "running");
                                   RunDispatch init_system 1]
                                  (new_run "run1" None)) !! 0%nat = Some q
    ∧ listener_queues
        (run_exec_ops [RunPut complete_event; RunDispatch init_system 2]
           (unsubscribe 0
              (run_exec_ops [RunSubscribe; RunPut (status_event "running");
                             RunDispatch init_system 1]
                            (new_run "run1" None)))) !! 0%nat = Some q'
    ∧ delivered q' = delivered q.
Proof.
  assert (is_Some (listener_queues
            (run_exec_ops [RunSubscribe; RunPut (status_event "running");
                           RunDispatch init_system 1]
                          (new_run "run1" None)) !! 0%nat))
    as [q Hq] by (vm_compute; eauto).
  destruct (unsubscribed_listener_gets_nothing_more
              [RunSubscribe; RunPut (status_event "running");
               RunDispatch init_system 1]
              [RunPut complete_event; RunDispatch init_system 2]
              "run1" None 0%nat q Hq) as (q' & Hq' & Hd).
  exists q, q'. split; [exact Hq|]. split; [exact Hq' | exact Hd].
Defined.

Lemma register_agent_run_raise_unchanged rid run now s exn s' :
  register_agent_run rid run now s = (Raise exn, s') → s' = s.
Proof.
  unfold register_agent_run, bind, get_race.
  destruct (RACE_STATES s !! rid) as [r|]; [|by intros [= _ <-]].
  destruct (agent_run_id r); [by intros [= _ <-] | done].
Qed.

(** X16: a launch for a race that is unknown or already has a run leaves
    no trace and passes the exception of the registration on as it is:
    the [KeyError] of [get_race] for an unknown race, the [RuntimeError]
    of [register_agent_run] for a race that has a run; the fresh run is
    taken out of [run_states] again, and the race manager's state is as
    before. *)
Theorem failed_launch_leaves_no_trace sv run race now :
  run_states sv !! run = None →
  truthy_str race = true →
  (RACE_STATES (manager sv) !! race = None →
   launch_run run (Some race) now sv
   = (Raise (KeyError ("Unknown race id " +:+ race)), sv))
  ∧ (∀ r bound,
       RACE_STATES (manager sv) !! race = Some r →
       agent_run_id r = Some bound →
       launch_run run (Some race) now sv
       = (Raise (RuntimeError ("Agent run already registered for race "
                               +:+ race)), sv)).
Proof.
  intros Hfresh Hrace. unfold launch_run. rewrite Hrace.
  unfold register_agent_run, bind, get_race.
  split.
  - intros ->. rewrite delete_insert_id by done. by destruct sv.
  - intros r bound -> ->. simpl.
    rewrite delete_insert_id by done. by destruct sv.
Qed.

Lemma failed_launch_leaves_no_trace_witness :
  launch_run "run2" (Some "race2") 200
             (mkServer ∅ (state_after human_first))
  = (Raise (KeyError "Unknown race id race2"),
     mkServer ∅ (state_after human_first))
  ∧ launch_run "run2" (Some "race1") 200
               (mkServer ∅ (state_after human_first))
    = (Raise (RuntimeError "Agent run already registered for race race1"),
       mkServer ∅ (state_after human_first)).
Proof.
  assert (Hnone : RACE_STATES (state_after human_first) !! "race2" = None)
    by (vm_compute; reflexivity).
  assert (Hsome : ∃ r, RACE_STATES (state_after human_first) !! "race1" = Some r
                       ∧ agent_run_id r = Some "run1")
    by (vm_compute; eauto).
  destruct Hsome as (r & Hr & Hbound).
  split.
  - exact (proj1 (failed_launch_leaves_no_trace
                    (mkServer ∅ (state_after human_first)) "run2" "race2" 200
                    eq_refl eq_refl) Hnone).
  - exact (proj2 (failed_launch_leaves_no_trace
                    (mkServer ∅ (state_after human_first)) "run2" "race1" 200
                    eq_refl eq_refl) r "run1" Hr Hbound).
Defined.

(** X17: a launch for a race that has no run yet succeeds and binds the
    run both ways: the run is in [run_states] under the returned
    identifier, the index maps it to the race, and the race names it as
    its agent run, is running, and its agent is starting. *)
Theorem launch_binds_run_both_ways sv run race now r :
  truthy_str race = true →
  RACE_STATES (manager sv) !! race = Some r →
  agent_run_id r = None →
  ∃ sv' r',
    launch_run run (Some race) now sv = (Return run, sv')
    ∧ run_states sv' !! run = Some (new_run run (Some race))
    ∧ RUN_TO_RACE (manager sv') !! run = Some race
    ∧ RACE_STATES (manager sv') !! race = Some r'
    ∧ agent_run_id r' = Some run ∧ status r' = running
    ∧ p_status (agent r') = "starting".
Proof.
  intros Hrace Hr Hnone. unfold launch_run. rewrite Hrace.
  unfold register_agent_run, bind, get_race. rewrite Hr, Hnone. simpl.
  eexists _, _. split; [done|]. simpl.
  rewrite !lookup_insert_eq. done.
Qed.

Lemma launch_binds_run_both_ways_witness :
  ∃ sv',
    launch_run "run1" (Some "race1") 101
      (mkServer ∅ (state_after [OpCreateRace "race1" sample_task 100]))
    = (Return "run1", sv')
    ∧ RUN_TO_RACE (manager sv') !! "run1" = Some "race1".
Proof.
  assert (∃ r, RACE_STATES (state_after [OpCreateRace "race1" sample_task 100])
                 !! "race1" = Some r ∧ agent_run_id r = None)
    as (r & Hr & Hn) by (vm_compute; eauto).
  destruct (launch_binds_run_both_ways
              (mkServer ∅ (state_after [OpCreateRace "race1" sample_task 100]))
              "run1" "race1" 101 r eq_refl Hr Hn)
    as (sv' & r' & Hl & _ & Hroute & _).
  exists sv'. split; [exact Hl | exact Hroute].
Defined.

(** X20: the consuming loop of [run_cli] stops at the first [complete]
    event: the events it has collected are the queue's content up to and
    including it; and it never leaves the loop when no [complete]
    comes. *)
Theorem until_complete_stops_at_first_complete evs :
  (∀ got, until_complete evs = Some got →
     ∃ pre c rest,
       evs = pre ++ c :: rest ∧ got = pre ++ [c]
       ∧ is_str (ev_type c) "complete" = true ∧ Forall not_complete pre)
  ∧ (until_complete evs = None ↔ Forall not_complete evs).
Proof.
  induction evs as [|e evs [IHsome IHnone]]; simpl.
  { split; [done|]. split; [by constructor | done]. }
  destruct (is_str (ev_type e) "complete") eqn:He.
  - split.
    + intros got [= <-]. exists [], e, evs. done.
    + split; [done|]. intros Hall. apply Forall_cons in Hall as [Hc _].
      unfold not_complete in Hc. congruence.
  - split.
    + intros got Hgot.
      destruct (until_complete evs) as [got'|] eqn:Hu; [|done].
      simpl in Hgot. injection Hgot as <-.
      destruct (IHsome got' eq_refl) as (pre & c & rest & -> & -> & Hc & Hpre).
      exists (e :: pre), c, rest. repeat split; try done. by constructor.
    + destruct (until_complete evs) as [got'|] eqn:Hu; simpl.
      * split; [done|]. intros Hall. apply Forall_cons in Hall as [_ Hall].
        by apply IHnone in Hall.
      * split; [|done]. intros _. constructor; [done|]. by apply IHnone.
Qed.

(** ** The guard of [_maybe_finalize] *)

(** X21: in every interleaving of agent events, human submissions and
    judgement completions, each race has at most one judge invocation and
    at most one verdict write; the judge has been invoked exactly once as
    soon as the flag is set or a verdict is there, and in particular in
    every state in which both sides are ready by the test of
    [_maybe_finalize]; and with the flag set or a verdict present
    [_maybe_finalize] returns at once, changing nothing. *)
Theorem judgement_triggered_once ops s rid :
  exec_ops ops init_system = Some s →
  (occurrences rid (judge_calls s) ≤ 1)%nat
  ∧ (occurrences rid (verdict_writes s) ≤ 1)%nat
  ∧ ∀ r, RACE_STATES s !! rid = Some r →
      (occurrences rid (judge_calls s) = 1%nat
       ↔ finalizing r = true ∨ is_Some (verdict r))
      ∧ (occurrences rid (verdict_writes s) = 1%nat ↔ is_Some (verdict r))
      ∧ (agent_ready r && human_ready r = true →
         occurrences rid (judge_calls s) = 1%nat)
      ∧ (finalizing r = true ∨ is_Some (verdict r) →
         maybe_finalize rid s = (Return tt, s)).
Proof.
  intros Hrun.
  assert (Hok : sys_ok s) by (eapply exec_ops_ok; [apply sys_ok_init | done]).
  destruct Hok as (Hraces & _ & Hfresh).
  destruct (RACE_STATES s !! rid) as [r|] eqn:Hr.
  2:{ destruct (Hfresh rid Hr) as (_ & -> & ->). split; [lia|]. split; [lia|]. done. }
  destruct (Hraces rid r Hr) as [[Ip Iw Ic Ie Ij Icm Inr Ia Ias Ih Ihs] Hs].
  rewrite Ic, Ip, Iw.
  assert (Hcases : (finalizing r = true ∧ verdict r = None)
                   ∨ finalizing r = false).
  { destruct (finalizing r); [left; auto | by right]. }
  split; [|split].
  - destruct Hcases as [[-> ->]| ->]; [lia|]. destruct (verdict r); lia.
  - destruct (verdict r); lia.
  - intros r0 ?; simplify_eq. repeat split.
    + destruct Hcases as [[-> ->]| ->]; [auto|].
      destruct (verdict r0); [eauto | simpl; lia].
    + intros [Hf|[v Hv]].
      * rewrite Hf, (Ie Hf). done.
      * rewrite Hv. destruct (finalizing r0) eqn:Hf; [|done].
        by rewrite (Ie eq_refl) in Hv.
    + destruct (verdict r0); [eauto | lia].
    + intros [v ->]. done.
    + intros Hready. unfold should_finalize in Hs.
      destruct (verdict r0).
      * destruct (finalizing r0) eqn:Hf; [|done]. by specialize (Ie eq_refl).
      * destruct (finalizing r0); [done | congruence].
    + intros Hguard. unfold maybe_finalize, bind, get_race. rewrite Hr.
      unfold should_finalize.
      destruct Hguard as [-> | [v ->]]; [|done]. by destruct (verdict r0).
Qed.

Lemma judgement_triggered_once_witness :
  exec_ops race_judge_fails init_system = Some (state_after race_judge_fails)
  ∧ (occurrences "race1" (judge_calls (state_after race_judge_fails)) ≤ 1)%nat
  ∧ (occurrences "race1" (verdict_writes (state_after race_judge_fails)) ≤ 1)%nat.
Proof.
  split; [vm_compute; reflexivity|].
  destruct (judgement_triggered_once race_judge_fails
              (state_after race_judge_fails) "race1") as (H1 & H2 & _);
    [vm_compute; reflexivity|].
  split; assumption.
Defined.
